(** * Query pools of the Vulkan driver layer (vk_query.cpp)

    A shallow embedding of the two query-pool variants of the driver:
    [PalQueryPool], which delegates to one hardware back-end object per
    device, and [TimestampQueryPool], which keeps its slots in plain
    CPU-visible memory.  Unsigned machine integers are binary naturals
    ([N]) with every wrap-around of the C++ arithmetic written out;
    [size_t] and [VkDeviceSize] are 64 bits wide, the target is
    little-endian. *)

From Stdlib Require Import NArith ZArith List Bool Arith Lia.
Import ListNotations.
Local Open Scope N_scope.

(** ** Machine integers *)

(** [static_cast<uint32_t>] and the wrap-around of 32-bit arithmetic. *)
Definition u32 (x : N) : N := x mod 2 ^ 32.

(** The wrap-around of 64-bit arithmetic ([size_t], [VkDeviceSize]). *)
Definition u64 (x : N) : N := x mod 2 ^ 64.

(** ** Result codes *)

(** The [VkResult] codes this file returns or tests. *)
Inductive VkResult : Set :=
| VK_SUCCESS
| VK_NOT_READY
| VK_ERROR_OUT_OF_HOST_MEMORY
| VK_ERROR_OUT_OF_DEVICE_MEMORY
| VK_ERROR_INITIALIZATION_FAILED.

(** Modelled from the spec: [Pal::Result] is declared by the hardware
    abstraction layer, whose headers are not among the sources; these are
    the outcomes the spec names (success, the non-fatal not-ready status,
    host and device memory exhaustion, any other back-end failure). *)
Inductive PalResult : Set :=
| Success
| NotReady
| ErrorOutOfMemory
| ErrorOutOfGpuMemory
| ErrorUnknown.

Definition VkResult_eq_dec (a b : VkResult) : {a = b} + {a <> b}.
Proof. decide equality. Defined.

Definition PalResult_eq_dec (a b : PalResult) : {a = b} + {a <> b}.
Proof. decide equality. Defined.

Definition is_VK_SUCCESS (r : VkResult) : bool :=
  if VkResult_eq_dec r VK_SUCCESS then true else false.

Definition is_VK_NOT_READY (r : VkResult) : bool :=
  if VkResult_eq_dec r VK_NOT_READY then true else false.

Definition is_Success (r : PalResult) : bool :=
  if PalResult_eq_dec r Success then true else false.

(** ** Query kinds and result flags *)

Inductive VkQueryType : Set :=
| VK_QUERY_TYPE_OCCLUSION
| VK_QUERY_TYPE_PIPELINE_STATISTICS
| VK_QUERY_TYPE_TIMESTAMP
| VK_QUERY_TYPE_TRANSFORM_FEEDBACK_STREAM_EXT.

Definition is_transform_feedback (t : VkQueryType) : bool :=
  match t with
  | VK_QUERY_TYPE_TRANSFORM_FEEDBACK_STREAM_EXT => true
  | _ => false
  end.

(** [VkQueryResultFlags] is a 32-bit mask; the bits are those of the
    Vulkan headers. *)
Definition VK_QUERY_RESULT_64_BIT : N := 1.
Definition VK_QUERY_RESULT_WAIT_BIT : N := 2.
Definition VK_QUERY_RESULT_WITH_AVAILABILITY_BIT : N := 4.
Definition VK_QUERY_RESULT_PARTIAL_BIT : N := 8.

(** [(flags & bit) != 0]. *)
Definition has_flag (flags bit : N) : bool := negb (N.land flags bit =? 0).

(** ** The caller's destination buffer *)

(** One store through [pData]: the byte offset from [pData], and the value
    stored through a [uint32_t*] or a [uint64_t*]. *)
Inductive Store : Set :=
| Store32 (off val : N)
| Store64 (off val : N).

Definition store_off (s : Store) : N :=
  match s with Store32 off _ | Store64 off _ => off end.

Definition store_width (s : Store) : N :=
  match s with Store32 _ _ => 4 | Store64 _ _ => 8 end.

Definition store_val (s : Store) : N :=
  match s with Store32 _ v | Store64 _ v => v end.

(** First byte offset past the store. *)
Definition store_end (s : Store) : N := store_off s + store_width s.

(** Byte [k] of [v], least significant first. *)
Definition byte_of (v k : N) : N := (v / 2 ^ (8 * k)) mod 256.

(** Memory as bytes by offset. *)
Definition Bytes : Type := N -> N.

Definition write_bytes (off width v : N) (m : Bytes) : Bytes :=
  fun a => if (off <=? a) && (a <? off + width) then byte_of v (a - off) else m a.

Definition apply_store (m : Bytes) (s : Store) : Bytes :=
  write_bytes (store_off s) (store_width s) (store_val s) m.

(** Stores are listed in program order. *)
Definition apply_stores (ss : list Store) (m : Bytes) : Bytes :=
  fold_left apply_store ss m.

(** The little-endian 64-bit word at byte offset [a]. *)
Definition load64 (m : Bytes) (a : N) : N :=
  m a + 2 ^ 8 * m (a + 1) + 2 ^ 16 * m (a + 2) + 2 ^ 24 * m (a + 3)
  + 2 ^ 32 * m (a + 4) + 2 ^ 40 * m (a + 5) + 2 ^ 48 * m (a + 6)
  + 2 ^ 56 * m (a + 7).

(** ** Timestamp query pool *)

Record TimestampQueryPool : Set := {
  m_entryCount : N;   (* uint32_t *)
  m_slotSize : N      (* uint32_t, the device's timestampQueryPoolSlotSize *)
}.

Section Timestamp.

(** The reserved word of a slot that holds no timestamp yet; its value is
    declared in the pool's header, outside the sources. *)
Variable TimestampNotReady : N.

(** The pool's memory is written by the GPU while the CPU reads it
    ([volatile]): [mem t a] is the 64-bit word that the [t]-th read sees
    at byte offset [a]. *)
Definition VolatileMem : Type := nat -> N -> N.

(** [while (!ready) { value = *pTimestamp; ready = (value != TimestampNotReady); }]
    entered with [ready = false]; [fuel] bounds the iterations, [None]
    is a loop that is still polling. *)
Fixpoint poll (fuel : nat) (mem : VolatileMem) (clock : nat) (addr : N)
  : option (N * nat) :=
  match fuel with
  | O => None
  | S fuel' =>
      let value := mem clock addr in
      if value =? TimestampNotReady
      then poll fuel' mem (S clock) addr
      else Some (value, S clock)
  end.

(** The first read of a slot and, under WAIT, the polling loop. *)
Definition read_timestamp (fuel : nat) (mem : VolatileMem) (clock : nat)
  (addr flags : N) : option (N * bool * nat) :=
  let value := mem clock addr in
  let ready := negb (value =? TimestampNotReady) in
  if has_flag flags VK_QUERY_RESULT_WAIT_BIT && negb ready
  then match poll fuel mem (S clock) addr with
       | Some (v, c) => Some (v, true, c)
       | None => None
       end
  else Some (value, ready, S clock).

(** The stores of one destination record at byte offset [off]. *)
Definition write_slot (flags off value : N) (ready : bool) : list Store :=
  if has_flag flags VK_QUERY_RESULT_64_BIT
  then (if ready then [Store64 off value] else [])
       ++ (if has_flag flags VK_QUERY_RESULT_WITH_AVAILABILITY_BIT
           then [Store64 (off + 8) (N.b2n ready)] else [])
  else (if ready then [Store32 off (u32 value)] else [])
       ++ (if has_flag flags VK_QUERY_RESULT_WITH_AVAILABILITY_BIT
           then [Store32 (off + 4) (N.b2n ready)] else []).

(** Byte offset of the backing word of the slot read into record [dstSlot]. *)
Definition srcSlotOffset (pool : TimestampQueryPool) (startQuery dstSlot : N) : N :=
  u32 (u32 (dstSlot + startQuery) * m_slotSize pool).

(** The loop over destination records, [n] iterations from [dstSlot] on.
    The result is the conjunction [allReady &= ready] over these
    iterations ([None]: an iteration is still polling), the stores made
    up to there, and the clock after the last read. *)
Fixpoint slot_loop (fuel : nat) (mem : VolatileMem) (pool : TimestampQueryPool)
  (startQuery stride flags : N) (n : nat) (dstSlot : N) (clock : nat)
  : option bool * list Store * nat :=
  match n with
  | O => (Some true, [], clock)
  | S n' =>
      match read_timestamp fuel mem clock (srcSlotOffset pool startQuery dstSlot) flags with
      | None => (None, [], clock)
      | Some (value, ready, clock') =>
          let pSlotData := u64 (dstSlot * stride) in
          let '(allReady, stores, clock'') :=
            slot_loop fuel mem pool startQuery stride flags n' (dstSlot + 1) clock' in
          (option_map (andb ready) allReady,
           write_slot flags pSlotData value ready ++ stores,
           clock'')
      end
  end.

(** The reads the loop completes, in order: the record index with the
    value and the readiness [read_timestamp] returned for it.  The list
    ends early at an iteration that is still polling. *)
Fixpoint slot_reads (fuel : nat) (mem : VolatileMem) (pool : TimestampQueryPool)
  (startQuery flags : N) (n : nat) (dstSlot : N) (clock : nat)
  : list (N * N * bool) :=
  match n with
  | O => []
  | S n' =>
      match read_timestamp fuel mem clock (srcSlotOffset pool startQuery dstSlot) flags with
      | None => []
      | Some (value, ready, clock') =>
          (dstSlot, value, ready)
          :: slot_reads fuel mem pool startQuery flags n' (dstSlot + 1) clock'
      end
  end.

Definition queryValueSize (flags : N) : N :=
  if has_flag flags VK_QUERY_RESULT_64_BIT then 8 else 4.

Definition querySlotSize (flags : N) : N :=
  queryValueSize flags
  * (if has_flag flags VK_QUERY_RESULT_WITH_AVAILABILITY_BIT then 2 else 1).

(** The number of records written: [queryCount] clamped to the buffer. *)
Definition clampedCount (queryCount dataSize stride flags : N) : N :=
  N.min queryCount (u32 (dataSize / N.max (querySlotSize flags) stride)).

(** [TimestampQueryPool::GetResults]: the status ([None] while a WAIT is
    still polling after [fuel] re-reads of a slot), the stores through
    [pData] in program order, and the clock.  Mapping and unmapping the
    pool's memory around the loop store nothing and are left out. *)
Definition TimestampQueryPool_GetResults (fuel : nat) (mem : VolatileMem)
  (pool : TimestampQueryPool) (startQuery queryCount dataSize stride flags : N)
  (clock : nat) : option VkResult * list Store * nat :=
  if 0 <? queryCount then
    let queryCount' := clampedCount queryCount dataSize stride flags in
    let '(allReady, stores, clock') :=
      slot_loop fuel mem pool startQuery stride flags (N.to_nat queryCount') 0 clock in
    (option_map (fun b : bool => if b then VK_SUCCESS else VK_NOT_READY) allReady,
     stores, clock')
  else (Some VK_SUCCESS, [], clock).

(** The reads [GetResults] completes: those of its loop over the clamped
    number of records. *)
Definition TimestampQueryPool_reads (fuel : nat) (mem : VolatileMem)
  (pool : TimestampQueryPool) (startQuery queryCount dataSize stride flags : N)
  (clock : nat) : list (N * N * bool) :=
  if 0 <? queryCount
  then slot_reads fuel mem pool startQuery flags
         (N.to_nat (clampedCount queryCount dataSize stride flags)) 0 clock
  else [].

End Timestamp.


(** *** Reset *)

(** The pool's memory as one device sees it: the outcome of mapping it for
    the CPU, and its bytes. *)
Record Replica : Type := {
  mapResult : PalResult;
  gpuMem : Bytes
}.

Section TimestampReset.

Variable TimestampNotReady : N.

(** [for (idx = 0; idx < queryDataSize; idx++) pQueryData[idx] = TimestampNotReady;]
    with [n] iterations left from [idx] on and [pQueryData] at byte
    offset [base]. *)
Fixpoint fill_not_ready (n : nat) (base idx : N) (m : Bytes) : Bytes :=
  match n with
  | O => m
  | S n' => fill_not_ready n' base (idx + 1) (write_bytes (base + 8 * idx) 8 TimestampNotReady m)
  end.

(** The body of the loop over devices: a replica whose map fails is skipped. *)
Definition reset_replica (pool : TimestampQueryPool) (startQuery queryDataSize : N)
  (r : Replica) : Replica :=
  if is_Success (mapResult r)
  then {| mapResult := mapResult r;
          gpuMem := fill_not_ready (N.to_nat queryDataSize)
                      (u32 (m_slotSize pool * startQuery)) 0 (gpuMem r) |}
  else r.

(** [TimestampQueryPool::Reset] over the replicas of the pool's memory,
    one per device. *)
Definition TimestampQueryPool_Reset (pool : TimestampQueryPool)
  (replicas : list Replica) (startQuery queryCount : N) : list Replica :=
  if startQuery <? m_entryCount pool then
    let queryCount' := N.min queryCount (m_entryCount pool - startQuery) in
    let queryDataSize := u32 (u32 (m_slotSize pool * queryCount') / 8) in
    map (reset_replica pool startQuery queryDataSize) replicas
  else replicas.

End TimestampReset.

(** ** Resources and their events *)

(** [VkAllocationCallbacks] by identity. *)
Definition Allocator : Set := nat.

(** What a call does to the resources it owns, in program order. *)
Inductive Event : Set :=
| EvAllocApiObject (pAllocator : option Allocator)    (* a host block was handed out *)
| EvFreeApiObject (pAllocator : option Allocator)
| EvCreateQueryPool (deviceIdx : nat)   (* a back-end object now exists for the device *)
| EvDestroyQueryPool (deviceIdx : nat)  (* IQueryPool::Destroy on the device's object *)
| EvAllocAndBindGpuMem                  (* GPU memory was allocated and bound *)
| EvFreeGpuMem
| EvDestructor.

Definition Event_eq_dec (a b : Event) : {a = b} + {a <> b}.
Proof. repeat decide equality. Defined.

(** Every acquisition of the trace is matched by a release. *)
Definition no_resource_survives (t : list Event) : Prop :=
  (forall a, count_occ Event_eq_dec t (EvAllocApiObject a)
             = count_occ Event_eq_dec t (EvFreeApiObject a))
  /\ (forall i, count_occ Event_eq_dec t (EvCreateQueryPool i)
                = count_occ Event_eq_dec t (EvDestroyQueryPool i))
  /\ count_occ Event_eq_dec t EvAllocAndBindGpuMem
     = count_occ Event_eq_dec t EvFreeGpuMem.

(** ** Hardware-delegating query pool *)

(** The device as [PalQueryPool::Create] sees it. *)
Record Device : Type := {
  NumPalDevices : nat;
  (* whether AllocApiObject returns a block *)
  AllocApiObject : bool;
  (* the status GetQueryPoolSize leaves in palResult *)
  GetQueryPoolSize : PalResult;
  (* IDevice::CreateQueryPool on a device: its status, and whether it set
     the object pointer it was given *)
  CreateQueryPool : nat -> PalResult * bool;
  (* the status of InternalMemMgr::AllocAndBindGpuMem; on failure it
     leaves nothing allocated, the code has nothing to free then *)
  AllocAndBindGpuMem : VkResult
}.

Record PalQueryPool : Type := {
  m_queryType : VkQueryType;
  (* m_pPalQueryPool[deviceIdx] != nullptr *)
  m_pPalQueryPool : nat -> bool
}.

(** What the back end of the default device answers to [GetResults]. *)
Record PalReply : Type := {
  reply_result : PalResult;
  (* the 64-bit words of the buffer it was given, by index, after the call
     (read when the buffer is the scratch array xfbQueryData) *)
  reply_words : N -> N;
  (* its stores into the buffer, by byte offset (when the buffer is pData) *)
  reply_stores : list Store
}.

(** [IQueryPool::GetResults], called with the flags, the first slot, the
    slot count, the buffer size and the stride. *)
Definition PalBackend : Type := N -> N -> N -> N -> N -> PalReply.

(** [pPalQueryPools[deviceIdx] = ...]. *)
Definition set_pool (pools : nat -> bool) (deviceIdx : nat) (p : bool) : nat -> bool :=
  fun i => if Nat.eqb i deviceIdx then p else pools i.

(** The loop that destroys every back-end object whose pointer is set,
    [n] devices from [deviceIdx] on. *)
Fixpoint destroy_pools (pools : nat -> bool) (n deviceIdx : nat) : list Event :=
  match n with
  | O => []
  | S n' =>
      (if pools deviceIdx then [EvDestroyQueryPool deviceIdx] else [])
      ++ destroy_pools pools n' (S deviceIdx)
  end.

Section Pal.

(** The conversion of back-end statuses is declared in a header outside
    the sources. *)
Variable PalToVkResult : PalResult -> VkResult.

(** *** Create *)

(** The loop that constructs one back-end object per device, [n] devices
    left from [deviceIdx] on; it stops at the first status that is not
    [Success]. *)
Fixpoint create_pools (dev : Device) (n deviceIdx : nat) (palResult : PalResult)
  (result : VkResult) (pools : nat -> bool)
  : VkResult * (nat -> bool) * list Event :=
  match n with
  | O => (result, pools, [])
  | S n' =>
      if is_Success palResult then
        let '(palResult', created) := CreateQueryPool dev deviceIdx in
        let pools' := if created then set_pool pools deviceIdx true else pools in
        let '(result', pools'', events) :=
          create_pools dev n' (S deviceIdx) palResult' (PalToVkResult palResult') pools' in
        (result', pools'',
         (if created then [EvCreateQueryPool deviceIdx] else []) ++ events)
      else (result, pools, [])
  end.

(** [PalQueryPool::Create]: the status, the pool written to [*ppQueryPool]
    if any, and the events. *)
Definition PalQueryPool_Create (dev : Device) (queryType : VkQueryType)
  (pAllocator : option Allocator) : VkResult * option PalQueryPool * list Event :=
  if negb (AllocApiObject dev) then (VK_ERROR_OUT_OF_HOST_MEMORY, None, [])
  else
    let '(result, pPalQueryPools, created) :=
      create_pools dev (NumPalDevices dev) 0 (GetQueryPoolSize dev) VK_SUCCESS
        (fun _ => false) in
    let '(result', bound) :=
      if is_VK_SUCCESS result
      then (AllocAndBindGpuMem dev,
            if is_VK_SUCCESS (AllocAndBindGpuMem dev) then [EvAllocAndBindGpuMem] else [])
      else (result, []) in
    if is_VK_SUCCESS result'
    then (result',
          Some {| m_queryType := queryType; m_pPalQueryPool := pPalQueryPools |},
          EvAllocApiObject pAllocator :: created ++ bound)
    else (result', None,
          EvAllocApiObject pAllocator :: created ++ bound
          ++ destroy_pools pPalQueryPools (NumPalDevices dev) 0
          ++ [EvFreeApiObject pAllocator]).

(** *** Destroy *)

Definition PalQueryPool_Destroy (numPalDevices : nat) (pool : PalQueryPool)
  (pAllocator : option Allocator) : VkResult * list Event :=
  (VK_SUCCESS,
   destroy_pools (m_pPalQueryPool pool) numPalDevices 0
   ++ [EvFreeGpuMem; EvDestructor; EvFreeApiObject pAllocator]).

(** *** GetResults *)

Definition numXfbQueryDataElems (flags : N) : N :=
  if has_flag flags VK_QUERY_RESULT_WITH_AVAILABILITY_BIT then 3 else 2.

(** The stores of one transform-feedback record at byte offset [pData],
    from the slot's words [x0 x1 x2] of the scratch array. *)
Definition write_xfb_slot (flags : N) (result : VkResult) (pData x0 x1 x2 : N)
  : list Store :=
  let availability := has_flag flags VK_QUERY_RESULT_WITH_AVAILABILITY_BIT in
  let counters := is_VK_SUCCESS result || has_flag flags VK_QUERY_RESULT_PARTIAL_BIT in
  if negb (has_flag flags VK_QUERY_RESULT_64_BIT)
  then (if counters then [Store32 pData (u32 x1); Store32 (pData + 4) (u32 x0)] else [])
       ++ (if availability then [Store32 (pData + 8) (u32 x2)] else [])
  else (if counters then [Store64 pData x1; Store64 (pData + 8) x0] else [])
       ++ (if availability then [Store64 (pData + 16) x2] else []).

(** The loop over the slots of a transform-feedback read-back, [n]
    iterations from slot [i] on with the destination at offset [pData]. *)
Fixpoint xfb_loop (flags : N) (result : VkResult) (xfbQueryData : N -> N)
  (stride : N) (n : nat) (i pData : N) : list Store :=
  match n with
  | O => []
  | S n' =>
      let k := i * numXfbQueryDataElems flags in
      write_xfb_slot flags result pData
        (xfbQueryData k) (xfbQueryData (k + 1)) (xfbQueryData (k + 2))
      ++ xfb_loop flags result xfbQueryData stride n' (i + 1) (pData + stride)
  end.

(** [PalQueryPool::GetResults]: the status and the stores through [pData].
    [VK_ASSERT(queryCount * stride <= dataSize)] is compiled out of release
    builds and checks nothing here. *)
Definition PalQueryPool_GetResults (pool : PalQueryPool) (backend : PalBackend)
  (startQuery queryCount dataSize stride flags : N) : VkResult * list Store :=
  if 0 <? queryCount then
    let xfb := is_transform_feedback (m_queryType pool) in
    let queryDataStride :=
      if xfb then 8 * numXfbQueryDataElems flags else stride in
    let queryDataSize :=
      if xfb then u64 (8 * numXfbQueryDataElems flags * queryCount) else dataSize in
    let queryFlags := if xfb then N.lor flags VK_QUERY_RESULT_64_BIT else flags in
    let reply := backend queryFlags startQuery queryCount queryDataSize queryDataStride in
    let result := PalToVkResult (reply_result reply) in
    if xfb then
      if is_VK_SUCCESS result || is_VK_NOT_READY result then
        let stride' := if stride =? 0 then queryDataStride else stride in
        (result,
         xfb_loop flags result (reply_words reply) stride' (N.to_nat queryCount) 0 0)
      else (result, [])
    else (result, reply_stores reply)
  else (VK_SUCCESS, []).

End Pal.

(** ** Entry points *)

(** [TimestampQueryPool::Destroy]. *)
Definition TimestampQueryPool_Destroy (pool : TimestampQueryPool)
  (pAllocator : option Allocator) : VkResult * list Event :=
  (VK_SUCCESS, [EvFreeGpuMem; EvDestructor; EvFreeApiObject pAllocator]).

(** The object behind a non-null [VkQueryPool] handle. *)
Inductive QueryPool : Type :=
| PalPool (pool : PalQueryPool)
| TimestampPool (pool : TimestampQueryPool).

(** [vkDestroyQueryPool]: the handle is [None] for [VK_NULL_HANDLE];
    [defaultAllocator] is the instance's callbacks, used when the caller
    passes none. *)
Definition vkDestroyQueryPool (numPalDevices : nat) (defaultAllocator : Allocator)
  (queryPool : option QueryPool) (pAllocator : option Allocator) : list Event :=
  match queryPool with
  | None => []
  | Some object =>
      let pAllocCB :=
        match pAllocator with Some a => Some a | None => Some defaultAllocator end in
      match object with
      | PalPool pool => snd (PalQueryPool_Destroy numPalDevices pool pAllocCB)
      | TimestampPool pool => snd (TimestampQueryPool_Destroy pool pAllocCB)
      end
  end.

(** ** The public record layout, after the spec *)

(** Element [idx] of a destination record at byte offset [off], in the
    width the caller asked for. *)
Definition store_elem (flags off idx v : N) : Store :=
  if has_flag flags VK_QUERY_RESULT_64_BIT
  then Store64 (off + 8 * idx) v
  else Store32 (off + 4 * idx) (v mod 2 ^ 32).

(** The stream-output record as the spec words it: the counters in the
    order (written, needed), then the availability as the last element
    when it is requested. *)
Definition spec_xfb_record (flags off needed written availability : N)
  (counters : bool) : list Store :=
  (if counters
   then [store_elem flags off 0 written; store_elem flags off 1 needed] else [])
  ++ (if has_flag flags VK_QUERY_RESULT_WITH_AVAILABILITY_BIT
      then [store_elem flags off 2 availability] else []).

(** The natural size of a stream-output record in the caller's format:
    two counters, and the availability when requested, each of the
    requested width. *)
Definition spec_xfb_record_size (flags : N) : N :=
  (if has_flag flags VK_QUERY_RESULT_64_BIT then 8 else 4)
  * (if has_flag flags VK_QUERY_RESULT_WITH_AVAILABILITY_BIT then 3 else 2).

(** ** Sample inputs *)

Definition sample_NotReady : N := 18446744073709551615.

Definition sample_pool : TimestampQueryPool :=
  {| m_entryCount := 4; m_slotSize := 8 |}.

(** Slot 0 holds the timestamp 5, slot 1 is not ready, the slots after
    them hold 2^32 + 7; nothing changes over time. *)
Definition sample_mem : VolatileMem :=
  fun _ a => if a =? 0 then 5 else if a =? 8 then sample_NotReady else 4294967303.

Definition sample_bytes : Bytes := fun _ => 0.

Definition sample_PalToVkResult (r : PalResult) : VkResult :=
  match r with
  | Success => VK_SUCCESS
  | NotReady => VK_NOT_READY
  | ErrorOutOfMemory => VK_ERROR_OUT_OF_HOST_MEMORY
  | ErrorOutOfGpuMemory => VK_ERROR_OUT_OF_DEVICE_MEMORY
  | ErrorUnknown => VK_ERROR_INITIALIZATION_FAILED
  end.

(** A back end that succeeds and reports the word [100 + i] at index [i]. *)
Definition sample_backend : PalBackend :=
  fun _ _ _ _ _ =>
    {| reply_result := Success; reply_words := fun i => 100 + i; reply_stores := [] |}.

Definition sample_xfb_pool : PalQueryPool :=
  {| m_queryType := VK_QUERY_TYPE_TRANSFORM_FEEDBACK_STREAM_EXT;
     m_pPalQueryPool := fun _ => true |}.

(** Three devices; constructing the back-end object of device 2 fails. *)
Definition sample_device_create_fails : Device :=
  {| NumPalDevices := 3;
     AllocApiObject := true;
     GetQueryPoolSize := Success;
     CreateQueryPool := fun i => if Nat.eqb i 2 then (ErrorOutOfMemory, false)
                                 else (Success, true);
     AllocAndBindGpuMem := VK_SUCCESS |}.

(** Three devices; the GPU memory cannot be allocated. *)
Definition sample_device_bind_fails : Device :=
  {| NumPalDevices := 3;
     AllocApiObject := true;
     GetQueryPoolSize := Success;
     CreateQueryPool := fun _ => (Success, true);
     AllocAndBindGpuMem := VK_ERROR_OUT_OF_DEVICE_MEMORY |}.

(** Projections of an outcome [(status, stores, clock)]. *)
Definition status_of {A B : Type} (r : A * list Store * B) : A := fst (fst r).
Definition stores_of {A B : Type} (r : A * list Store * B) : list Store := snd (fst r).
Definition clock_of {A B : Type} (r : A * list Store * B) : B := snd r.


(** ** Reading the destination and the pool back *)

(** The little-endian 32-bit word at byte offset [a]. *)
Definition load32 (m : Bytes) (a : N) : N :=
  m a + 2 ^ 8 * m (a + 1) + 2 ^ 16 * m (a + 2) + 2 ^ 24 * m (a + 3).

(** Pool memory that nothing writes during a read-back: every read of
    offset [a] sees the word the bytes hold there. *)
Definition quiescent (m : Bytes) : VolatileMem := fun _ a => load64 m a.

(** ** Reset of a hardware-delegating pool *)

(** The loop of [PalQueryPool::Reset], [n] devices from [deviceIdx] on:
    one call [IQueryPool::Reset(startQuery, queryCount, nullptr)] per
    device whose object pointer is set, recorded as the device with the
    range it was handed. *)
Fixpoint reset_pools (pools : nat -> bool) (startQuery queryCount : N)
  (n deviceIdx : nat) : list (nat * N * N) :=
  match n with
  | O => []
  | S n' =>
      (if pools deviceIdx then [(deviceIdx, startQuery, queryCount)] else [])
      ++ reset_pools pools startQuery queryCount n' (S deviceIdx)
  end.

(** [PalQueryPool::Reset]. *)
Definition PalQueryPool_Reset (numPalDevices : nat) (pool : PalQueryPool)
  (startQuery queryCount : N) : list (nat * N * N) :=
  reset_pools (m_pPalQueryPool pool) startQuery queryCount numPalDevices 0.

(** ** Creation of a timestamp pool *)

Inductive GpuHeap : Set :=
| GpuHeapLocal
| GpuHeapGartCacheable
| GpuHeapGartUswc.

(** The [InternalMemCreateInfo] and device mask handed to [AllocGpuMem]. *)
Record GpuMemRequest : Set := {
  req_size : N;
  req_alignment : N;
  req_heaps : list GpuHeap;
  req_shareable : bool;
  req_persistentMapped : bool;
  req_allocMask : N
}.

(** What [TimestampQueryPool::Create] asks of the device, in program order. *)
Inductive CreateCall : Set :=
(* AllocApiObject(pAllocator, totalSize), and whether it returned a block *)
| CallAllocApiObject (pAllocator : option Allocator) (ok : bool)
(* AllocGpuMem(info, &internalMemory, allocMask), and its status *)
| CallAllocGpuMem (request : GpuMemRequest) (status : VkResult)
(* Create(Un)typedBufferViewSrds on a device, with the view's address,
   range and stride *)
| CallCreateBufferViewSrds (typed : bool) (deviceIdx : nat) (gpuAddr range stride : N)
(* memset(pViewMem, 0, descriptorSizes.bufferView) *)
| CallZeroViewStorage
(* FreeGpuMem(&internalMemory), and whether the memory had been allocated *)
| CallFreeGpuMem (allocated : bool)
(* FreeApiObject(pAllocator, pMemory), and whether pMemory is a block *)
| CallFreeApiObject (pAllocator : option Allocator) (block : bool).

(** The device as [TimestampQueryPool::Create] sees it, beyond [Device]. *)
Record TimestampDevice : Type := {
  timestampQueryPoolSlotSize : N;       (* uint32_t *)
  AllocGpuMem : VkResult;               (* the status of InternalMemMgr::AllocGpuMem *)
  UseStridedCopyQueryResults : bool;
  GetPalDeviceMask : N;                 (* uint32_t *)
  (* the constant DefaultMemoryInstanceIdx, declared outside the sources *)
  DefaultMemoryInstanceIdx : N;
  (* InternalMemory::Size and ::GpuVirtAddr of the allocated memory *)
  InternalMemory_Size : N;
  InternalMemory_GpuVirtAddr : nat -> N
}.

(** The loop that builds one buffer view per device, [n] devices from
    [deviceIdx] on. *)
Fixpoint create_views (ts : TimestampDevice) (typed : bool) (stride : N)
  (n deviceIdx : nat) : list CreateCall :=
  match n with
  | O => []
  | S n' =>
      CallCreateBufferViewSrds typed deviceIdx (InternalMemory_GpuVirtAddr ts deviceIdx)
        (InternalMemory_Size ts) stride
      :: create_views ts typed stride n' (S deviceIdx)
  end.

(** [TimestampQueryPool::Create] for [pCreateInfo->queryCount = queryCount]:
    the status, the pool written to [*ppQueryPool] if any, and the calls. *)
Definition TimestampQueryPool_Create (dev : Device) (ts : TimestampDevice)
  (queryCount : N) (pAllocator : option Allocator)
  : VkResult * option TimestampQueryPool * list CreateCall :=
  let entryCount := queryCount in
  let slotSize := timestampQueryPoolSlotSize ts in
  let pMemory := AllocApiObject dev in
  let result := if pMemory then VK_SUCCESS else VK_ERROR_OUT_OF_HOST_MEMORY in
  let allocate := is_VK_SUCCESS result && (0 <? entryCount) in
  let request :=
    if (1 <? NumPalDevices dev)%nat
    then {| req_size := u32 (entryCount * slotSize);
            req_alignment := slotSize;
            req_heaps := [GpuHeapGartCacheable];
            req_shareable := true;
            req_persistentMapped := true;
            req_allocMask := u32 (N.shiftl 1 (DefaultMemoryInstanceIdx ts)) |}
    else {| req_size := u32 (entryCount * slotSize);
            req_alignment := slotSize;
            req_heaps := [GpuHeapLocal; GpuHeapGartCacheable; GpuHeapGartUswc];
            req_shareable := false;
            req_persistentMapped := true;
            req_allocMask := GetPalDeviceMask ts |} in
  let result' := if allocate then AllocGpuMem ts else result in
  let calls :=
    CallAllocApiObject pAllocator pMemory
    :: (if allocate then [CallAllocGpuMem request (AllocGpuMem ts)] else []) in
  if is_VK_SUCCESS result'
  then (result',
        Some {| m_entryCount := entryCount; m_slotSize := slotSize |},
        calls
        ++ (if 0 <? entryCount
            then if UseStridedCopyQueryResults ts
                 then create_views ts false 0 (NumPalDevices dev) 0
                 else create_views ts true slotSize (NumPalDevices dev) 0
            else [CallZeroViewStorage]))
  else (result', None,
        calls
        ++ [CallFreeGpuMem (allocate && is_VK_SUCCESS (AllocGpuMem ts));
            CallFreeApiObject pAllocator pMemory]).

(** ** The factory *)

(** What [QueryPool::Create] asked of the device: the events of the
    hardware-delegating variant or the calls of the timestamp variant. *)
Definition CreateTrace : Set := (list Event + list CreateCall)%type.

Section Factory.

Variable PalToVkResult : PalResult -> VkResult.

(** [QueryPool::Create]: the status, the object behind the handle written
    to [*pQueryPool] if any, and the trace of the variant it chose. *)
Definition QueryPool_Create (dev : Device) (ts : TimestampDevice)
  (queryType : VkQueryType) (queryCount : N) (pAllocator : option Allocator)
  : VkResult * option QueryPool * CreateTrace :=
  match queryType with
  | VK_QUERY_TYPE_TIMESTAMP =>
      let '(result, pObject, calls) :=
        TimestampQueryPool_Create dev ts queryCount pAllocator in
      (result,
       if is_VK_SUCCESS result then option_map TimestampPool pObject else None,
       inr calls)
  | _ =>
      let '(result, pObject, events) :=
        PalQueryPool_Create PalToVkResult dev queryType pAllocator in
      (result,
       if is_VK_SUCCESS result then option_map PalPool pObject else None,
       inl events)
  end.

End Factory.

(** ** Pipeline layout: the arrays behind the object *)

(** [sizeof(PipelineLayout::SetUserDataLayout)]: six [uint32_t] fields. *)
Definition sizeof_SetUserDataLayout : N := 6 * 4.

(** Byte offset, from the object, of the entry [GetSetUserData(setIndex)]
    returns; [sizeofThis] is the size of the object itself. *)
Definition GetSetUserData_offset (sizeofThis setIndex : N) : N :=
  sizeofThis + setIndex * sizeof_SetUserDataLayout.

(** Byte offset, from the object, of the pointer [GetSetLayouts(setIndex)]
    returns, for a layout of [setCount] sets; [sizeofPointer] is the size
    of a pointer to a descriptor set layout.  The offset of the array is
    computed in [size_t]. *)
Definition GetSetLayouts_offset (sizeofThis sizeofPointer setCount setIndex : N) : N :=
  u64 (sizeofThis + u64 (setCount * sizeof_SetUserDataLayout))
  + setIndex * sizeofPointer.

(** ** More sample inputs *)

(** Three devices on which everything succeeds. *)
Definition sample_device : Device :=
  {| NumPalDevices := 3;
     AllocApiObject := true;
     GetQueryPoolSize := Success;
     CreateQueryPool := fun _ => (Success, true);
     AllocAndBindGpuMem := VK_SUCCESS |}.

(** A device with 8-byte timestamp slots whose GPU memory is exhausted. *)
Definition sample_timestamp_device : TimestampDevice :=
  {| timestampQueryPoolSlotSize := 8;
     AllocGpuMem := VK_ERROR_OUT_OF_DEVICE_MEMORY;
     UseStridedCopyQueryResults := false;
     GetPalDeviceMask := 7;
     DefaultMemoryInstanceIdx := 0;
     InternalMemory_Size := 0;
     InternalMemory_GpuVirtAddr := fun _ => 0 |}.

(** * Properties *)

(** Case analysis on the width and the availability bit of the flags. *)
Ltac case_flags flags :=
  destruct (has_flag flags VK_QUERY_RESULT_64_BIT);
  destruct (has_flag flags VK_QUERY_RESULT_WITH_AVAILABILITY_BIT).

(** Case analysis on every comparison of offsets in the goal. *)
Ltac case_offsets :=
  repeat match goal with
         | |- context [?x <=? ?y] => destruct (N.leb_spec x y)
         | |- context [?x <? ?y] => destruct (N.ltb_spec x y)
         end.

(** ** Arithmetic facts *)

Lemma u32_le (x : N) : u32 x <= x.
Proof. unfold u32. apply N.Div0.mod_le. Qed.

Lemma u64_le (x : N) : u64 x <= x.
Proof. unfold u64. apply N.Div0.mod_le. Qed.

Lemma u64_small (x : N) : x < 2 ^ 64 -> u64 x = x.
Proof. unfold u64. intros H. now apply N.mod_small. Qed.

Lemma u32_small (x : N) : x < 2 ^ 32 -> u32 x = x.
Proof. unfold u32. intros H. now apply N.mod_small. Qed.

Lemma querySlotSize_pos (flags : N) : 4 <= querySlotSize flags.
Proof.
  unfold querySlotSize, queryValueSize. case_flags flags; lia.
Qed.

(** The clamp leaves room for [clampedCount] records of the larger of the
    record size and the stride. *)
Lemma clampedCount_fits (queryCount dataSize stride flags : N) :
  clampedCount queryCount dataSize stride flags
  * N.max (querySlotSize flags) stride <= dataSize.
Proof.
  unfold clampedCount.
  set (M := N.max (querySlotSize flags) stride).
  assert (HM : 0 < M) by (pose proof (querySlotSize_pos flags); lia).
  assert (H1 : u32 (dataSize / M) <= dataSize / M) by apply u32_le.
  assert (H2 : M * (dataSize / M) <= dataSize) by (apply N.Div0.mul_div_le).
  assert (H3 : N.min queryCount (u32 (dataSize / M)) <= dataSize / M) by lia.
  nia.
Qed.

(** ** Where a record's stores fall *)

Lemma write_slot_range (flags off value : N) (ready : bool) :
  Forall (fun s => off <= store_off s /\ store_end s <= off + querySlotSize flags)
         (write_slot flags off value ready).
Proof.
  unfold write_slot, querySlotSize, queryValueSize, store_end.
  case_flags flags; destruct ready; simpl; repeat constructor; simpl; lia.
Qed.

Section TimestampBounds.

Variable TimestampNotReady : N.

Lemma slot_loop_in_bounds (fuel : nat) (mem : VolatileMem) (pool : TimestampQueryPool)
  (startQuery stride flags dataSize : N) :
  forall (n : nat) (dstSlot : N) (clock : nat),
    (dstSlot + N.of_nat n) * N.max (querySlotSize flags) stride <= dataSize ->
    Forall (fun s => store_end s <= dataSize)
      (stores_of (slot_loop TimestampNotReady fuel mem pool startQuery stride flags
                    n dstSlot clock)).
Proof.
  induction n as [|n IH]; intros dstSlot clock Hfit; simpl.
  - constructor.
  - destruct (read_timestamp _ _ _ _ _ _) as [[[value ready] clock']|]; [|constructor].
    specialize (IH (dstSlot + 1) clock').
    destruct (slot_loop _ _ _ _ _ _ _ _ _ _) as [[allReady stores] clock''].
    unfold stores_of in *; simpl in *.
    apply Forall_app; split.
    + eapply Forall_impl; [|apply write_slot_range].
      intros s [_ Hend]; simpl in Hend.
      pose proof (u64_le (dstSlot * stride)).
      nia.
    + apply IH. lia.
Qed.

End TimestampBounds.

(** ** Lists *)

Lemma flat_map_map {A B C : Type} (f : B -> list C) (g : A -> B) (l : list A) :
  flat_map f (map g l) = flat_map (fun x => f (g x)) l.
Proof.
  induction l as [|x l IH]; simpl; [reflexivity|]. now rewrite IH.
Qed.

Lemma flat_map_ext_In {A B : Type} (f g : A -> list B) (l : list A) :
  (forall x, In x l -> f x = g x) -> flat_map f l = flat_map g l.
Proof.
  induction l as [|x l IH]; intros H; simpl; [reflexivity|].
  rewrite (H x) by now left. rewrite IH; [reflexivity|].
  intros y Hy. apply H. now right.
Qed.

Lemma seq_S_map (n : nat) : seq 1 n = map S (seq 0 n).
Proof. symmetry. apply seq_shift. Qed.

(** ** Destination memory *)

Lemma write_bytes_outside (off width v : N) (m : Bytes) (a : N) :
  a < off \/ off + width <= a -> write_bytes off width v m a = m a.
Proof.
  intros H. unfold write_bytes. case_offsets; simpl; try reflexivity; lia.
Qed.

Lemma write_bytes_inside (off width v : N) (m : Bytes) (a : N) :
  off <= a < off + width -> write_bytes off width v m a = byte_of v (a - off).
Proof.
  intros H. unfold write_bytes. case_offsets; simpl; try reflexivity; lia.
Qed.

Lemma apply_stores_cons (s : Store) (ss : list Store) (m : Bytes) :
  apply_stores (s :: ss) m = apply_stores ss (apply_store m s).
Proof. reflexivity. Qed.

Lemma apply_stores_app (ss1 ss2 : list Store) (m : Bytes) :
  apply_stores (ss1 ++ ss2) m = apply_stores ss2 (apply_stores ss1 m).
Proof. unfold apply_stores. apply fold_left_app. Qed.

(** A byte that no store covers keeps its value. *)
Lemma apply_stores_untouched (a : N) (ss : list Store) :
  forall m : Bytes,
    Forall (fun s => a < store_off s \/ store_end s <= a) ss ->
    apply_stores ss m a = m a.
Proof.
  induction ss as [|s ss IH]; intros m H; [reflexivity|].
  inversion H as [|? ? Hs Hss]; subst.
  rewrite apply_stores_cons, IH by assumption.
  unfold apply_store. now apply write_bytes_outside.
Qed.

(** ** The loop of the timestamp read-back *)

Section TimestampFacts.

Variable TimestampNotReady : N.
Variables (fuel : nat) (mem : VolatileMem) (pool : TimestampQueryPool).
Variables (startQuery stride flags : N).

Lemma slot_loop_stores :
  forall (n : nat) (dstSlot : N) (clock : nat),
    stores_of (slot_loop TimestampNotReady fuel mem pool startQuery stride flags
                 n dstSlot clock)
    = flat_map (fun x => write_slot flags (u64 (fst (fst x) * stride))
                           (snd (fst x)) (snd x))
        (slot_reads TimestampNotReady fuel mem pool startQuery flags n dstSlot clock).
Proof.
  induction n as [|n IH]; intros dstSlot clock; simpl; [reflexivity|].
  destruct (read_timestamp _ _ _ _ _ _) as [[[value ready] clock']|]; [|reflexivity].
  specialize (IH (dstSlot + 1) clock').
  destruct (slot_loop _ _ _ _ _ _ _ _ _ _) as [[allReady stores] clock''].
  unfold stores_of in *; simpl in *. now rewrite IH.
Qed.

Lemma slot_loop_status :
  forall (n : nat) (dstSlot : N) (clock : nat),
    status_of (slot_loop TimestampNotReady fuel mem pool startQuery stride flags
                 n dstSlot clock)
    = let reads := slot_reads TimestampNotReady fuel mem pool startQuery flags
                     n dstSlot clock in
      if Nat.eqb (length reads) n then Some (forallb snd reads) else None.
Proof.
  induction n as [|n IH]; intros dstSlot clock; simpl; [reflexivity|].
  destruct (read_timestamp _ _ _ _ _ _) as [[[value ready] clock']|]; [|reflexivity].
  specialize (IH (dstSlot + 1) clock').
  destruct (slot_loop _ _ _ _ _ _ _ _ _ _) as [[allReady stores] clock''].
  unfold status_of in *; simpl in *. rewrite IH.
  destruct (Nat.eqb _ n); reflexivity.
Qed.

(** Every completed read returns a word of the slot's backing store, and
    its readiness is the comparison with the sentinel. *)
Lemma poll_sound :
  forall (n : nat) (clock : nat) (addr v : N) (c : nat),
    poll TimestampNotReady n mem clock addr = Some (v, c) ->
    v <> TimestampNotReady /\ exists t, v = mem t addr.
Proof.
  induction n as [|n IH]; intros clock addr v c; simpl; [discriminate|].
  destruct (N.eqb_spec (mem clock addr) TimestampNotReady) as [E|E].
  - apply IH.
  - intros H; injection H as <- <-. split; [exact E|now exists clock].
Qed.

Lemma read_timestamp_sound (clock : nat) (addr v : N) (r : bool) (c : nat) :
  read_timestamp TimestampNotReady fuel mem clock addr flags = Some (v, r, c) ->
  r = negb (v =? TimestampNotReady) /\ exists t, v = mem t addr.
Proof.
  unfold read_timestamp.
  destruct (has_flag flags VK_QUERY_RESULT_WAIT_BIT
            && negb (negb (mem clock addr =? TimestampNotReady))) eqn:W.
  - destruct (poll _ _ _ _ _) as [[v' c']|] eqn:P; [|discriminate].
    intros H; injection H as <- <- <-.
    apply poll_sound in P as [Hv Ht]. split; [|exact Ht].
    apply N.eqb_neq in Hv. now rewrite Hv.
  - intros H; injection H as <- <- <-. split; [reflexivity|now exists clock].
Qed.

Lemma slot_reads_sound :
  forall (n : nat) (dstSlot : N) (clock : nat) (d v : N) (r : bool),
    In (d, v, r) (slot_reads TimestampNotReady fuel mem pool startQuery flags
                    n dstSlot clock) ->
    dstSlot <= d < dstSlot + N.of_nat n
    /\ r = negb (v =? TimestampNotReady)
    /\ exists t, v = mem t (srcSlotOffset pool startQuery d).
Proof.
  induction n as [|n IH]; intros dstSlot clock d v r; simpl; [contradiction|].
  destruct (read_timestamp _ _ _ _ _ _) as [[[value ready] clock']|] eqn:R;
    [|contradiction].
  intros [H|H].
  - injection H as <- <- <-. apply read_timestamp_sound in R. split; [lia|exact R].
  - apply IH in H as [Hd H]. split; [lia|exact H].
Qed.

Lemma slot_reads_length (n : nat) (dstSlot : N) (clock : nat) :
  (length (slot_reads TimestampNotReady fuel mem pool startQuery flags n dstSlot clock)
   <= n)%nat.
Proof.
  revert dstSlot clock. induction n as [|n IH]; intros dstSlot clock; simpl; [lia|].
  destruct (read_timestamp _ _ _ _ _ _) as [[[value ready] clock']|]; simpl; [|lia].
  specialize (IH (dstSlot + 1) clock'). lia.
Qed.

(** *** Without WAIT *)

Hypothesis no_wait : has_flag flags VK_QUERY_RESULT_WAIT_BIT = false.

Lemma read_timestamp_no_wait (clock : nat) (addr : N) :
  read_timestamp TimestampNotReady fuel mem clock addr flags
  = Some (mem clock addr, negb (mem clock addr =? TimestampNotReady), S clock).
Proof. unfold read_timestamp. now rewrite no_wait. Qed.

Lemma slot_reads_no_wait :
  forall (n : nat) (dstSlot : N) (clock : nat),
    slot_reads TimestampNotReady fuel mem pool startQuery flags n dstSlot clock
    = map (fun i : nat =>
             let value := mem (clock + i)%nat
                            (srcSlotOffset pool startQuery (dstSlot + N.of_nat i)) in
             (dstSlot + N.of_nat i, value, negb (value =? TimestampNotReady)))
          (seq 0 n).
Proof.
  induction n as [|n IH]; intros dstSlot clock; [reflexivity|].
  cbn [slot_reads]. rewrite read_timestamp_no_wait, IH.
  cbn [seq map]. rewrite seq_S_map, map_map.
  f_equal.
  - now rewrite Nat.add_0_r, N.add_0_r.
  - apply map_ext; intros i.
    replace (dstSlot + 1 + N.of_nat i) with (dstSlot + N.of_nat (S i)) by lia.
    now replace (S clock + i)%nat with (clock + S i)%nat by lia.
Qed.

Lemma slot_loop_clock_no_wait :
  forall (n : nat) (dstSlot : N) (clock : nat),
    clock_of (slot_loop TimestampNotReady fuel mem pool startQuery stride flags
                n dstSlot clock) = (clock + n)%nat.
Proof.
  induction n as [|n IH]; intros dstSlot clock; simpl.
  - unfold clock_of; simpl; lia.
  - rewrite read_timestamp_no_wait.
    specialize (IH (dstSlot + 1) (S clock)).
    destruct (slot_loop _ _ _ _ _ _ _ _ _ _) as [[allReady stores] clock''].
    unfold clock_of in *; simpl in *. lia.
Qed.

End TimestampFacts.

(** ** The timestamp read-back as a whole *)

(** The outcome of [GetResults] is the outcome of its loop over the
    clamped number of records. *)
Lemma GetResults_unfold (TimestampNotReady : N) (fuel : nat) (mem : VolatileMem)
  (pool : TimestampQueryPool) (startQuery queryCount dataSize stride flags : N)
  (clock : nat) :
  0 < queryCount ->
  let loop := slot_loop TimestampNotReady fuel mem pool startQuery stride flags
                (N.to_nat (clampedCount queryCount dataSize stride flags)) 0 clock in
  let r := TimestampQueryPool_GetResults TimestampNotReady fuel mem pool startQuery
             queryCount dataSize stride flags clock in
  status_of r
  = option_map (fun b : bool => if b then VK_SUCCESS else VK_NOT_READY) (status_of loop)
  /\ stores_of r = stores_of loop
  /\ clock_of r = clock_of loop.
Proof.
  intros Hq. unfold TimestampQueryPool_GetResults.
  apply N.ltb_lt in Hq. rewrite Hq.
  destruct (slot_loop _ _ _ _ _ _ _ _ _ _) as [[allReady stores] clock'].
  repeat split.
Qed.

Lemma GetResults_stores (TimestampNotReady : N) (fuel : nat) (mem : VolatileMem)
  (pool : TimestampQueryPool) (startQuery queryCount dataSize stride flags : N)
  (clock : nat) :
  stores_of (TimestampQueryPool_GetResults TimestampNotReady fuel mem pool startQuery
               queryCount dataSize stride flags clock)
  = flat_map (fun x => write_slot flags (u64 (fst (fst x) * stride))
                         (snd (fst x)) (snd x))
      (TimestampQueryPool_reads TimestampNotReady fuel mem pool startQuery
         queryCount dataSize stride flags clock).
Proof.
  unfold TimestampQueryPool_reads.
  destruct (N.ltb_spec 0 queryCount) as [Hq|Hq].
  - destruct (GetResults_unfold TimestampNotReady fuel mem pool startQuery queryCount
                dataSize stride flags clock Hq) as (_ & Hstores & _).
    rewrite Hstores. apply slot_loop_stores.
  - unfold TimestampQueryPool_GetResults.
    destruct (N.ltb_spec 0 queryCount); [lia|reflexivity].
Qed.

Lemma GetResults_reads_sound (TimestampNotReady : N) (fuel : nat) (mem : VolatileMem)
  (pool : TimestampQueryPool) (startQuery queryCount dataSize stride flags : N)
  (clock : nat) (d v : N) (ready : bool) :
  In (d, v, ready)
     (TimestampQueryPool_reads TimestampNotReady fuel mem pool startQuery
        queryCount dataSize stride flags clock) ->
  d < clampedCount queryCount dataSize stride flags
  /\ ready = negb (v =? TimestampNotReady)
  /\ exists t, v = mem t (srcSlotOffset pool startQuery d).
Proof.
  unfold TimestampQueryPool_reads.
  destruct (0 <? queryCount); [|contradiction].
  intros H. apply slot_reads_sound in H as (Hd & Hr & Ht).
  split; [lia|]. split; assumption.
Qed.

(** The status is [VK_SUCCESS], [VK_NOT_READY], or none while polling. *)
Lemma GetResults_status_cases (TimestampNotReady : N) (fuel : nat) (mem : VolatileMem)
  (pool : TimestampQueryPool) (startQuery queryCount dataSize stride flags : N)
  (clock : nat) (e : VkResult) :
  status_of (TimestampQueryPool_GetResults TimestampNotReady fuel mem pool startQuery
               queryCount dataSize stride flags clock) = Some e ->
  e = VK_SUCCESS \/ e = VK_NOT_READY.
Proof.
  unfold TimestampQueryPool_GetResults.
  destruct (0 <? queryCount).
  - destruct (slot_loop _ _ _ _ _ _ _ _ _ _) as [[[[]|] stores] clock'];
      unfold status_of; simpl; intros H; try discriminate;
      injection H as <-; auto.
  - unfold status_of; simpl. intros H; injection H as <-. now left.
Qed.

(** ** Timestamp read-back without WAIT *)

Lemma forallb_map_seq (f : nat -> bool) (n : nat) :
  forallb f (seq 0 n) = true <-> forall i, (i < n)%nat -> f i = true.
Proof.
  rewrite forallb_forall. split.
  - intros H i Hi. apply H. apply in_seq. lia.
  - intros H i Hi. apply in_seq in Hi. apply H. lia.
Qed.

Lemma forallb_map' {A B : Type} (f : B -> bool) (g : A -> B) (l : list A) :
  forallb f (map g l) = forallb (fun x => f (g x)) l.
Proof.
  induction l as [|x l IH]; simpl; [reflexivity|]. now rewrite IH.
Qed.

Lemma write_slot_not_ready (flags off value : N) :
  write_slot flags off value false
  = if has_flag flags VK_QUERY_RESULT_WITH_AVAILABILITY_BIT
    then [store_elem flags off 1 0] else [].
Proof.
  unfold write_slot, store_elem. case_flags flags; reflexivity.
Qed.

(** C2, as amended.  A timestamp read-back with [queryCount > 0] and
    WAIT clear returns [VK_SUCCESS] iff the backing word of every
    examined slot differs from the not-ready sentinel, and
    [VK_NOT_READY] otherwise.  The stores made for a slot whose word is
    the sentinel are the availability word 0, when availability is
    requested, and nothing else: no counter value.  When the records do
    not overlap (the stride is at least the record size), the value
    bytes of such a slot's record are left unmodified by the call. *)
Theorem timestamp_GetResults_not_ready
  (TimestampNotReady : N) (fuel : nat) (mem : VolatileMem) (pool : TimestampQueryPool)
  (startQuery queryCount dataSize stride flags : N) (clock : nat)
  (Hcount : 0 < queryCount)
  (Hwait : has_flag flags VK_QUERY_RESULT_WAIT_BIT = false) :
  let n := N.to_nat (clampedCount queryCount dataSize stride flags) in
  let word := fun i : nat =>
    mem (clock + i)%nat (srcSlotOffset pool startQuery (N.of_nat i)) in
  let record := fun i : nat => u64 (N.of_nat i * stride) in
  let r := TimestampQueryPool_GetResults TimestampNotReady fuel mem pool startQuery
             queryCount dataSize stride flags clock in
  (status_of r = Some VK_SUCCESS
   <-> forall i, (i < n)%nat -> word i <> TimestampNotReady)
  /\ (status_of r = Some VK_SUCCESS \/ status_of r = Some VK_NOT_READY)
  /\ stores_of r
     = flat_map (fun i => write_slot flags (record i) (word i)
                            (negb (word i =? TimestampNotReady)))
         (seq 0 n)
  /\ (forall i, (i < n)%nat -> word i = TimestampNotReady ->
      write_slot flags (record i) (word i) (negb (word i =? TimestampNotReady))
      = if has_flag flags VK_QUERY_RESULT_WITH_AVAILABILITY_BIT
        then [store_elem flags (record i) 1 0] else [])
  /\ (dataSize < 2 ^ 64 -> querySlotSize flags <= stride ->
      forall i, (i < n)%nat -> word i = TimestampNotReady ->
      forall (dest : Bytes) (a : N),
        N.of_nat i * stride <= a < N.of_nat i * stride + queryValueSize flags ->
        apply_stores (stores_of r) dest a = dest a).
Proof.
  intros n word record r.
  destruct (GetResults_unfold TimestampNotReady fuel mem pool startQuery queryCount
              dataSize stride flags clock Hcount) as (Hstatus & Hstores & _).
  fold r in Hstatus, Hstores. fold n in Hstatus, Hstores.
  rewrite slot_loop_status in Hstatus. rewrite slot_loop_stores in Hstores.
  cbv zeta in Hstatus.
  rewrite (slot_reads_no_wait TimestampNotReady fuel mem pool startQuery flags Hwait)
    in Hstatus, Hstores.
  rewrite length_map, length_seq, Nat.eqb_refl, forallb_map' in Hstatus.
  rewrite flat_map_map in Hstores. cbn [fst snd] in Hstatus, Hstores.
  assert (Hstores' : stores_of r
     = flat_map (fun i => write_slot flags (record i) (word i)
                            (negb (word i =? TimestampNotReady))) (seq 0 n)).
  { rewrite Hstores. apply flat_map_ext. intros i. reflexivity. }
  assert (Hall : forallb (fun i => negb (word i =? TimestampNotReady)) (seq 0 n) = true
                 <-> forall i, (i < n)%nat -> word i <> TimestampNotReady).
  { rewrite forallb_map_seq. split; intros H i Hi; specialize (H i Hi).
    - apply negb_true_iff, N.eqb_neq in H. exact H.
    - apply negb_true_iff, N.eqb_neq. exact H. }
  assert (Hst : status_of r
                = Some (if forallb (fun i => negb (word i =? TimestampNotReady)) (seq 0 n)
                        then VK_SUCCESS else VK_NOT_READY)).
  { rewrite Hstatus. simpl. reflexivity. }
  split; [|split; [|split; [|split]]].
  - rewrite Hst, <- Hall.
    destruct (forallb _ _); split; intros H; try reflexivity; discriminate.
  - rewrite Hst. destruct (forallb _ _); [now left|now right].
  - exact Hstores'.
  - intros i _ Hw. rewrite Hw, N.eqb_refl. apply write_slot_not_ready.
  - intros Hsize Hstride i Hi Hw dest a Ha.
    rewrite Hstores'. apply apply_stores_untouched.
    apply Forall_flat_map, Forall_forall. intros j Hj. apply in_seq in Hj.
    assert (Hfit := clampedCount_fits queryCount dataSize stride flags).
    assert (Hrec : forall k, (k < n)%nat -> record k = N.of_nat k * stride).
    { intros k Hk. unfold record. apply u64_small. unfold n in Hk. nia. }
    rewrite (Hrec j) by lia.
    destruct (Nat.eq_dec j i) as [->|Hne].
    + rewrite Hw, N.eqb_refl. cbn [negb]. rewrite write_slot_not_ready.
      unfold queryValueSize in Ha. unfold store_elem, store_end.
      destruct (has_flag flags VK_QUERY_RESULT_WITH_AVAILABILITY_BIT);
        [|constructor].
      destruct (has_flag flags VK_QUERY_RESULT_64_BIT);
        repeat constructor; simpl; lia.
    + eapply Forall_impl; [|apply write_slot_range].
      intros s [Hlo Hhi].
      assert (queryValueSize flags <= querySlotSize flags).
      { unfold querySlotSize.
        destruct (has_flag flags VK_QUERY_RESULT_WITH_AVAILABILITY_BIT); lia. }
      destruct (Nat.lt_ge_cases j i); [right|left]; nia.
Qed.

Lemma timestamp_GetResults_not_ready_witness :
  (status_of (TimestampQueryPool_GetResults sample_NotReady 0 sample_mem sample_pool
                0 2 32 16 5 0) = Some VK_SUCCESS
   \/ status_of (TimestampQueryPool_GetResults sample_NotReady 0 sample_mem sample_pool
                   0 2 32 16 5 0) = Some VK_NOT_READY)
  /\ apply_stores
       (stores_of (TimestampQueryPool_GetResults sample_NotReady 0 sample_mem
                     sample_pool 0 2 32 16 5 0)) sample_bytes 16
     = sample_bytes 16.
Proof.
  destruct (timestamp_GetResults_not_ready sample_NotReady 0 sample_mem sample_pool
              0 2 32 16 5 0 eq_refl eq_refl) as (_ & Hstatus & _ & _ & Hbytes).
  split; [exact Hstatus|].
  apply (Hbytes eq_refl ltac:(vm_compute; discriminate) 1%nat).
  - vm_compute. lia.
  - reflexivity.
  - change (queryValueSize 5) with 8. lia.
Defined.

(** With stride 0 the records of all slots lie at offset 0: slot 1 is not
    ready, yet the value bytes of its record are overwritten with the
    timestamp of slot 0. *)
Lemma timestamp_not_ready_record_is_overwritten :
  has_flag 1 VK_QUERY_RESULT_WAIT_BIT = false
  /\ 1 < clampedCount 2 16 0 1
  /\ sample_mem 1%nat (srcSlotOffset sample_pool 0 1) = sample_NotReady
  /\ apply_stores
       (stores_of (TimestampQueryPool_GetResults sample_NotReady 0 sample_mem
                     sample_pool 0 2 16 0 1 0)) sample_bytes (1 * 0)
     <> sample_bytes (1 * 0).
Proof.
  repeat split. vm_compute. discriminate.
Qed.

(** ** The destination buffer's size *)

(** C3, as amended.  In the timestamp variant, for every [queryCount],
    [stride] (0 included), [dataSize] and flags, no store of
    [GetResults] reaches byte offset [dataSize] or beyond: the number of
    records written is clamped to [dataSize / max(record size, stride)].
    The hardware-delegating variant has no such clamp: the stores of its
    stream-output read-back do not depend on [dataSize] at all. *)
Theorem timestamp_GetResults_within_dataSize
  (TimestampNotReady : N) (fuel : nat) (mem : VolatileMem) (pool : TimestampQueryPool)
  (startQuery queryCount dataSize stride flags : N) (clock : nat)
  (PalToVkResult : PalResult -> VkResult) (pPalQueryPools : nat -> bool)
  (backend : PalBackend) (dataSize' : N) :
  let xfb_pool := {| m_queryType := VK_QUERY_TYPE_TRANSFORM_FEEDBACK_STREAM_EXT;
                     m_pPalQueryPool := pPalQueryPools |} in
  Forall (fun s => store_end s <= dataSize)
    (stores_of (TimestampQueryPool_GetResults TimestampNotReady fuel mem pool
                  startQuery queryCount dataSize stride flags clock))
  /\ (length (TimestampQueryPool_reads TimestampNotReady fuel mem pool
                startQuery queryCount dataSize stride flags clock)
      <= N.to_nat (N.min queryCount
                     (u32 (dataSize / N.max (querySlotSize flags) stride))))%nat
  /\ PalQueryPool_GetResults PalToVkResult xfb_pool backend
       startQuery queryCount dataSize stride flags
     = PalQueryPool_GetResults PalToVkResult xfb_pool backend
         startQuery queryCount dataSize' stride flags.
Proof.
  intros xfb_pool. split; [|split].
  - destruct (N.ltb_spec 0 queryCount) as [Hq|Hq].
    + destruct (GetResults_unfold TimestampNotReady fuel mem pool startQuery queryCount
                  dataSize stride flags clock Hq) as (_ & Hstores & _).
      rewrite Hstores. apply slot_loop_in_bounds.
      rewrite N2Nat.id, N.add_0_l. apply clampedCount_fits.
    + unfold TimestampQueryPool_GetResults.
      destruct (N.ltb_spec 0 queryCount); [lia|constructor].
  - unfold TimestampQueryPool_reads.
    destruct (0 <? queryCount); [apply slot_reads_length|simpl; lia].
  - reflexivity.
Qed.

(** Stream-output read-back of two slots into a buffer of 8 bytes with
    stride 8: the second record is stored at offsets 8 to 16, past the
    buffer. *)
Lemma pal_GetResults_writes_past_dataSize :
  ~ Forall (fun s => store_end s <= 8)
      (snd (PalQueryPool_GetResults sample_PalToVkResult sample_xfb_pool sample_backend
              0 2 8 8 0)).
Proof.
  intros H. rewrite Forall_forall in H.
  specialize (H (Store32 8 103)).
  assert (Hin : In (Store32 8 103)
                  (snd (PalQueryPool_GetResults sample_PalToVkResult sample_xfb_pool
                          sample_backend 0 2 8 8 0))).
  { vm_compute. auto. }
  apply H in Hin. unfold store_end in Hin. simpl in Hin. lia.
Qed.

(** ** Timestamp read-back with stride 0 *)

(** A ready slot's record overwrites the whole record at offset 0: what
    was there before does not show. *)
Lemma write_slot_ready_covers (flags value : N) (m m' : Bytes) (a : N) :
  (querySlotSize flags <= a -> m a = m' a) ->
  apply_stores (write_slot flags 0 value true) m a
  = apply_stores (write_slot flags 0 value true) m' a.
Proof.
  unfold write_slot, querySlotSize, queryValueSize.
  case_flags flags;
    intros H; cbn [app]; unfold apply_stores; cbn [fold_left];
    unfold apply_store, write_bytes; cbn [store_off store_width store_val];
    case_offsets; cbn [andb]; try reflexivity; try lia; apply H; lia.
Qed.

Lemma write_slot_not_ready_keeps_value (flags off value : N) (m : Bytes) (a : N) :
  a < off + queryValueSize flags ->
  apply_stores (write_slot flags off value false) m a = m a.
Proof.
  intros Ha. apply apply_stores_untouched.
  rewrite write_slot_not_ready. unfold queryValueSize in Ha.
  unfold store_elem, store_end.
  destruct (has_flag flags VK_QUERY_RESULT_WITH_AVAILABILITY_BIT); [|constructor].
  destruct (has_flag flags VK_QUERY_RESULT_64_BIT);
    repeat constructor; simpl; lia.
Qed.

(** C9, as amended.  In the timestamp variant a stride of 0 is not
    replaced by the record size: the clamp divides by the record size,
    and the record of every examined slot is stored at offset 0.  When
    the last examined slot is ready (always so under WAIT), the
    destination then holds that slot's record and nothing of the earlier
    ones; when it is not ready, its record leaves the value bytes as the
    earlier slots wrote them. *)
Theorem timestamp_GetResults_zero_stride
  (TimestampNotReady : N) (fuel : nat) (mem : VolatileMem) (pool : TimestampQueryPool)
  (startQuery queryCount dataSize flags : N) (clock : nat) :
  let r := TimestampQueryPool_GetResults TimestampNotReady fuel mem pool startQuery
             queryCount dataSize 0 flags clock in
  let reads := TimestampQueryPool_reads TimestampNotReady fuel mem pool startQuery
                 queryCount dataSize 0 flags clock in
  let record := fun x : N * N * bool => write_slot flags 0 (snd (fst x)) (snd x) in
  clampedCount queryCount dataSize 0 flags
  = N.min queryCount (u32 (dataSize / querySlotSize flags))
  /\ stores_of r = flat_map record reads
  /\ Forall (fun s => store_end s <= querySlotSize flags) (stores_of r)
  /\ (forall earlier d v, reads = earlier ++ [(d, v, true)] ->
      forall (dest : Bytes) (a : N),
        apply_stores (stores_of r) dest a
        = apply_stores (write_slot flags 0 v true) dest a)
  /\ (forall earlier d v, reads = earlier ++ [(d, v, false)] ->
      forall (dest : Bytes) (a : N), a < queryValueSize flags ->
        apply_stores (stores_of r) dest a
        = apply_stores (flat_map record earlier) dest a).
Proof.
  intros r reads record.
  assert (Hstores : stores_of r = flat_map record reads).
  { unfold r. rewrite GetResults_stores. apply flat_map_ext.
    intros [[d v] ready]. cbn [fst snd]. rewrite N.mul_0_r. reflexivity. }
  assert (Hbound : forall l, Forall (fun s => store_end s <= querySlotSize flags)
                               (flat_map record l)).
  { intros l. apply Forall_flat_map, Forall_forall. intros x _.
    eapply Forall_impl; [|apply write_slot_range].
    intros s [_ H]. exact H. }
  split; [|split; [|split; [|split]]].
  - unfold clampedCount. rewrite N.max_l by lia. reflexivity.
  - exact Hstores.
  - rewrite Hstores. apply Hbound.
  - intros earlier d v E dest a.
    rewrite Hstores, E, flat_map_app, apply_stores_app.
    cbn [flat_map]. rewrite app_nil_r. unfold record at 2. cbn [fst snd].
    apply write_slot_ready_covers. intros Ha.
    apply apply_stores_untouched.
    eapply Forall_impl; [|apply (Hbound earlier)].
    intros s Hs. right. simpl in Hs. lia.
  - intros earlier d v E dest a Ha.
    rewrite Hstores, E, flat_map_app, apply_stores_app.
    cbn [flat_map]. rewrite app_nil_r. unfold record at 2. cbn [fst snd].
    apply write_slot_not_ready_keeps_value. lia.
Qed.

Lemma timestamp_GetResults_zero_stride_witness :
  apply_stores
    (stores_of (TimestampQueryPool_GetResults sample_NotReady 0 sample_mem
                  sample_pool 2 2 16 0 1 0)) sample_bytes 0
  = 7.
Proof.
  destruct (timestamp_GetResults_zero_stride sample_NotReady 0 sample_mem sample_pool
              2 2 16 1 0) as (_ & _ & _ & Hlast & _).
  rewrite (Hlast [(0, 4294967303, true)] 1 4294967303 eq_refl).
  reflexivity.
Defined.

(** With stride 0 and the slots (5, not ready), the destination keeps the
    timestamp of slot 0: it does not hold what the record of the last
    examined slot alone leaves there. *)
Lemma timestamp_zero_stride_keeps_earlier_value :
  clampedCount 2 16 0 1 = 2
  /\ apply_stores
       (stores_of (TimestampQueryPool_GetResults sample_NotReady 0 sample_mem
                     sample_pool 0 2 16 0 1 0)) sample_bytes 0
     <> apply_stores
          (stores_of (TimestampQueryPool_GetResults sample_NotReady 0 sample_mem
                        sample_pool 1 1 16 0 1 1)) sample_bytes 0.
Proof. split; [reflexivity|]. vm_compute. discriminate. Qed.

(** ** Termination of the timestamp read-back *)

Section TimestampWait.

Variable TimestampNotReady : N.
Variables (mem : VolatileMem) (pool : TimestampQueryPool).
Variables (startQuery stride flags : N).

Hypothesis wait : has_flag flags VK_QUERY_RESULT_WAIT_BIT = true.

(** Under WAIT a completed read is a ready one. *)
Lemma read_timestamp_wait_ready (fuel clock : nat) (addr v : N) (r : bool) (c : nat) :
  read_timestamp TimestampNotReady fuel mem clock addr flags = Some (v, r, c) ->
  r = true.
Proof.
  unfold read_timestamp. rewrite wait. cbn [andb].
  destruct (mem clock addr =? TimestampNotReady); cbn [negb].
  - destruct (poll _ _ _ _ _) as [[v' c']|]; [|discriminate].
    intros H; now injection H as <- <- <-.
  - intros H; now injection H as <- <- <-.
Qed.

Lemma slot_reads_wait_ready (fuel : nat) :
  forall (n : nat) (dstSlot : N) (clock : nat) (d v : N) (r : bool),
    In (d, v, r) (slot_reads TimestampNotReady fuel mem pool startQuery flags
                    n dstSlot clock) ->
    r = true.
Proof.
  induction n as [|n IH]; intros dstSlot clock d v r; simpl; [contradiction|].
  destruct (read_timestamp _ _ _ _ _ _) as [[[value ready] clock']|] eqn:R;
    [|contradiction].
  intros [H|H].
  - injection H as <- <- <-. eapply read_timestamp_wait_ready; eassumption.
  - eapply IH; eassumption.
Qed.

(** The polling loop ends once the word stays different from the sentinel. *)
Lemma poll_terminates (addr : N) (T : nat) :
  (forall t, (T <= t)%nat -> mem t addr <> TimestampNotReady) ->
  forall (fuel clock : nat), (T <= clock + fuel)%nat ->
    poll TimestampNotReady (S fuel) mem clock addr <> None.
Proof.
  intros Hready. induction fuel as [|fuel IH]; intros clock HT.
  - simpl. destruct (N.eqb_spec (mem clock addr) TimestampNotReady) as [E|E].
    + exfalso. apply (Hready clock); [lia|exact E].
    + discriminate.
  - cbn [poll]. cbv zeta.
    destruct (N.eqb_spec (mem clock addr) TimestampNotReady) as [E|E].
    + apply IH. lia.
    + discriminate.
Qed.

Lemma read_timestamp_terminates (addr : N) (T fuel clock : nat) :
  (forall t, (T <= t)%nat -> mem t addr <> TimestampNotReady) ->
  (T < fuel)%nat ->
  read_timestamp TimestampNotReady fuel mem clock addr flags <> None.
Proof.
  intros Hready Hfuel. unfold read_timestamp.
  destruct (has_flag flags VK_QUERY_RESULT_WAIT_BIT && _); [|discriminate].
  destruct fuel as [|fuel]; [lia|].
  pose proof (poll_terminates addr T Hready fuel (S clock)) as H.
  destruct (poll _ _ _ _ _) as [[v c]|]; [discriminate|].
  exfalso. apply H; [lia|reflexivity].
Qed.

Lemma slot_reads_terminates (T fuel : nat) :
  (T < fuel)%nat ->
  forall (n : nat) (dstSlot : N) (clock : nat),
    (forall (i t : nat), (i < n)%nat -> (T <= t)%nat ->
       mem t (srcSlotOffset pool startQuery (dstSlot + N.of_nat i)) <> TimestampNotReady) ->
    length (slot_reads TimestampNotReady fuel mem pool startQuery flags n dstSlot clock)
    = n.
Proof.
  intros Hfuel. induction n as [|n IH]; intros dstSlot clock Hready; [reflexivity|].
  cbn [slot_reads].
  pose proof (read_timestamp_terminates
                (srcSlotOffset pool startQuery dstSlot) T fuel clock) as H.
  destruct (read_timestamp _ _ _ _ _ _) as [[[value ready] clock']|].
  - cbn [length]. f_equal. apply IH. intros i t Hi Ht.
    replace (dstSlot + 1 + N.of_nat i) with (dstSlot + N.of_nat (S i)) by lia.
    apply Hready; lia.
  - exfalso. apply H; [|exact Hfuel|reflexivity].
    intros t Ht. specialize (Hready 0%nat t). rewrite N.add_0_r in Hready.
    apply Hready; lia.
Qed.

End TimestampWait.

(** A loop that completes has read every one of its slots. *)
Lemma slot_reads_complete (TimestampNotReady : N) (fuel : nat) (mem : VolatileMem)
  (pool : TimestampQueryPool) (startQuery flags : N) :
  forall (n : nat) (dstSlot : N) (clock : nat),
    length (slot_reads TimestampNotReady fuel mem pool startQuery flags n dstSlot clock)
    = n ->
    forall i, (i < n)%nat ->
      exists v r, In (dstSlot + N.of_nat i, v, r)
                    (slot_reads TimestampNotReady fuel mem pool startQuery flags
                       n dstSlot clock).
Proof.
  induction n as [|n IH]; intros dstSlot clock Hlen i Hi; [lia|].
  cbn [slot_reads] in *.
  destruct (read_timestamp _ _ _ _ _ _) as [[[value ready] clock']|];
    [|discriminate].
  cbn [length] in Hlen. injection Hlen as Hlen.
  destruct i as [|i].
  - exists value, ready. left. now rewrite N.add_0_r.
  - destruct (IH (dstSlot + 1) clock' Hlen i) as (v & r & Hin); [lia|].
    exists v, r. right.
    now replace (dstSlot + N.of_nat (S i)) with (dstSlot + 1 + N.of_nat i) by lia.
Qed.

Lemma GetResults_status_length (TimestampNotReady : N) (fuel : nat) (mem : VolatileMem)
  (pool : TimestampQueryPool) (startQuery queryCount dataSize stride flags : N)
  (clock : nat) :
  0 < queryCount ->
  (status_of (TimestampQueryPool_GetResults TimestampNotReady fuel mem pool startQuery
                queryCount dataSize stride flags clock) <> None
   <-> length (slot_reads TimestampNotReady fuel mem pool startQuery flags
                 (N.to_nat (clampedCount queryCount dataSize stride flags)) 0 clock)
       = N.to_nat (clampedCount queryCount dataSize stride flags)).
Proof.
  intros Hq.
  destruct (GetResults_unfold TimestampNotReady fuel mem pool startQuery queryCount
              dataSize stride flags clock Hq) as (Hstatus & _ & _).
  rewrite Hstatus, slot_loop_status. cbv zeta.
  destruct (Nat.eqb_spec
              (length (slot_reads TimestampNotReady fuel mem pool startQuery flags
                 (N.to_nat (clampedCount queryCount dataSize stride flags)) 0 clock))
              (N.to_nat (clampedCount queryCount dataSize stride flags))) as [E|E];
    simpl; split; intros H; try assumption; try discriminate; congruence.
Qed.

(** C8.  A timestamp read-back with WAIT clear ends for every input and
    every memory, after reading each examined slot exactly once.  With
    WAIT set it ends only if every examined slot was seen to differ from
    the sentinel: when an examined slot holds the sentinel at all times,
    the call is still polling after any number of re-reads.  (It does
    end once every examined slot stays different from the sentinel.) *)
Theorem timestamp_GetResults_termination
  (TimestampNotReady : N) (mem : VolatileMem) (pool : TimestampQueryPool)
  (startQuery queryCount dataSize stride flags : N) (clock : nat) :
  let n := if 0 <? queryCount
           then N.to_nat (clampedCount queryCount dataSize stride flags) else 0%nat in
  let word := fun (t i : nat) => mem t (srcSlotOffset pool startQuery (N.of_nat i)) in
  let run := fun fuel =>
    TimestampQueryPool_GetResults TimestampNotReady fuel mem pool startQuery
      queryCount dataSize stride flags clock in
  (has_flag flags VK_QUERY_RESULT_WAIT_BIT = false ->
   forall fuel, status_of (run fuel) <> None /\ clock_of (run fuel) = (clock + n)%nat)
  /\ (has_flag flags VK_QUERY_RESULT_WAIT_BIT = true ->
      forall fuel, status_of (run fuel) <> None ->
      forall i, (i < n)%nat -> exists t, word t i <> TimestampNotReady)
  /\ (has_flag flags VK_QUERY_RESULT_WAIT_BIT = true ->
      forall i, (i < n)%nat -> (forall t, word t i = TimestampNotReady) ->
      forall fuel, status_of (run fuel) = None)
  /\ (forall T,
        (forall i t, (i < n)%nat -> (T <= t)%nat -> word t i <> TimestampNotReady) ->
        forall fuel, (T < fuel)%nat -> status_of (run fuel) <> None).
Proof.
  intros n word run.
  assert (Hseen : has_flag flags VK_QUERY_RESULT_WAIT_BIT = true ->
      forall fuel, status_of (run fuel) <> None ->
      forall i, (i < n)%nat -> exists t, word t i <> TimestampNotReady).
  { intros Hwait fuel Hdone i Hi. unfold n in Hi.
    destruct (N.ltb_spec 0 queryCount) as [Hq|Hq]; [|lia].
    apply (GetResults_status_length _ _ _ _ _ _ _ _ _ _ Hq) in Hdone.
    destruct (slot_reads_complete _ _ _ _ _ _ _ _ _ Hdone i Hi) as (v & r & Hin).
    pose proof (slot_reads_wait_ready _ _ _ _ _ Hwait _ _ _ _ _ _ _ Hin) as Hr.
    apply slot_reads_sound in Hin as (_ & Hrv & t & Hv).
    exists t. unfold word. rewrite N.add_0_l in Hv. rewrite <- Hv.
    rewrite Hrv in Hr. apply negb_true_iff, N.eqb_neq in Hr. exact Hr. }
  split; [|split; [exact Hseen|split]].
  - intros Hwait fuel. unfold run, n.
    destruct (N.ltb_spec 0 queryCount) as [Hq|Hq].
    + destruct (GetResults_unfold TimestampNotReady fuel mem pool startQuery queryCount
                  dataSize stride flags clock Hq) as (Hstatus & _ & Hclock).
      rewrite Hclock, slot_loop_clock_no_wait by exact Hwait. split; [|reflexivity].
      rewrite Hstatus, slot_loop_status. cbv zeta.
      rewrite slot_reads_no_wait by exact Hwait.
      rewrite length_map, length_seq, Nat.eqb_refl. discriminate.
    + unfold TimestampQueryPool_GetResults.
      destruct (N.ltb_spec 0 queryCount); [lia|].
      unfold status_of, clock_of; simpl. split; [discriminate|lia].
  - intros Hwait i Hi Hstuck fuel.
    destruct (status_of (run fuel)) eqn:E; [|reflexivity].
    exfalso.
    destruct (Hseen Hwait fuel ltac:(rewrite E; discriminate) i Hi) as [t Ht].
    apply Ht, Hstuck.
  - intros T Hready fuel Hfuel. unfold run, n in *.
    destruct (N.ltb_spec 0 queryCount) as [Hq|Hq].
    + apply (GetResults_status_length _ _ _ _ _ _ _ _ _ _ Hq).
      apply slot_reads_terminates with (T := T); [exact Hfuel|].
      intros i t Hi Ht. rewrite N.add_0_l. apply Hready; assumption.
    + unfold TimestampQueryPool_GetResults.
      destruct (N.ltb_spec 0 queryCount); [lia|].
      unfold status_of; simpl. discriminate.
Qed.

Lemma timestamp_GetResults_termination_witness :
  status_of (TimestampQueryPool_GetResults sample_NotReady 10 sample_mem sample_pool
               0 2 16 8 3 0) = None
  /\ status_of (TimestampQueryPool_GetResults sample_NotReady 0 sample_mem sample_pool
                  0 2 16 8 1 0) <> None.
Proof.
  split.
  - destruct (timestamp_GetResults_termination sample_NotReady sample_mem sample_pool
                0 2 16 8 3 0) as (_ & _ & Hstuck & _).
    apply (Hstuck eq_refl 1%nat).
    + vm_compute. lia.
    + intros t. reflexivity.
  - destruct (timestamp_GetResults_termination sample_NotReady sample_mem sample_pool
                0 2 16 8 1 0) as (Hends & _).
    apply (Hends eq_refl 0%nat).
Defined.

(** ** Stream-output read-back *)

(** The code's record is the spec's: the scratch words are (needed,
    written, availability) and go out as (written, needed, availability). *)
Lemma write_xfb_slot_spec (flags : N) (result : VkResult) (pData x0 x1 x2 : N) :
  write_xfb_slot flags result pData x0 x1 x2
  = spec_xfb_record flags pData x0 x1 x2
      (is_VK_SUCCESS result || has_flag flags VK_QUERY_RESULT_PARTIAL_BIT).
Proof.
  unfold write_xfb_slot, spec_xfb_record, store_elem, u32.
  destruct (has_flag flags VK_QUERY_RESULT_64_BIT);
    destruct (has_flag flags VK_QUERY_RESULT_WITH_AVAILABILITY_BIT);
    destruct (is_VK_SUCCESS result || has_flag flags VK_QUERY_RESULT_PARTIAL_BIT);
    cbn [negb app]; rewrite ?N.mul_0_r, ?N.add_0_r; reflexivity.
Qed.

Lemma xfb_loop_records (flags : N) (result : VkResult) (words : N -> N) (stride : N) :
  forall (n : nat) (i pData : N),
    xfb_loop flags result words stride n i pData
    = flat_map
        (fun j : nat =>
           let k := (i + N.of_nat j) * numXfbQueryDataElems flags in
           spec_xfb_record flags (pData + N.of_nat j * stride)
             (words k) (words (k + 1)) (words (k + 2))
             (is_VK_SUCCESS result || has_flag flags VK_QUERY_RESULT_PARTIAL_BIT))
        (seq 0 n).
Proof.
  induction n as [|n IH]; intros i pData; [reflexivity|].
  cbn [xfb_loop seq flat_map]. rewrite write_xfb_slot_spec, IH.
  rewrite seq_S_map, flat_map_map. cbv zeta.
  change (N.of_nat 0) with 0. rewrite ?N.mul_0_l, ?N.add_0_r. f_equal.
  apply flat_map_ext. intros j.
  replace (i + 1 + N.of_nat j) with (i + N.of_nat (S j)) by lia.
  replace (pData + stride + N.of_nat j * stride)
    with (pData + N.of_nat (S j) * stride) by lia.
  reflexivity.
Qed.

(** The read-back of a stream-output pool whose back end answers with a
    status that converts to [VK_SUCCESS] or [VK_NOT_READY]. *)
Lemma PalQueryPool_GetResults_xfb (PalToVkResult : PalResult -> VkResult)
  (pPalQueryPools : nat -> bool) (backend : PalBackend)
  (startQuery queryCount dataSize stride flags : N) :
  let pool := {| m_queryType := VK_QUERY_TYPE_TRANSFORM_FEEDBACK_STREAM_EXT;
                 m_pPalQueryPool := pPalQueryPools |} in
  let elems := numXfbQueryDataElems flags in
  let reply := backend (N.lor flags VK_QUERY_RESULT_64_BIT) startQuery queryCount
                 (u64 (8 * elems * queryCount)) (8 * elems) in
  let result := PalToVkResult (reply_result reply) in
  0 < queryCount ->
  result = VK_SUCCESS \/ result = VK_NOT_READY ->
  PalQueryPool_GetResults PalToVkResult pool backend
    startQuery queryCount dataSize stride flags
  = (result,
     flat_map
       (fun j : nat =>
          spec_xfb_record flags
            (N.of_nat j * (if stride =? 0 then 8 * elems else stride))
            (reply_words reply (N.of_nat j * elems))
            (reply_words reply (N.of_nat j * elems + 1))
            (reply_words reply (N.of_nat j * elems + 2))
            (is_VK_SUCCESS result || has_flag flags VK_QUERY_RESULT_PARTIAL_BIT))
       (seq 0 (N.to_nat queryCount))).
Proof.
  intros pool elems reply result Hq Hres.
  unfold PalQueryPool_GetResults. apply N.ltb_lt in Hq. rewrite Hq.
  cbn [pool m_queryType is_transform_feedback].
  fold elems. fold reply. fold result.
  assert (Hok : is_VK_SUCCESS result || is_VK_NOT_READY result = true).
  { destruct Hres as [-> | ->]; reflexivity. }
  rewrite Hok, xfb_loop_records. f_equal.
Qed.

(** C4.  Stream-output read-back on the hardware-delegating pool: when the
    back end reports, for slot [j], the pair needed = [needed j] and
    written = [written j] (and the availability [availability j]), the
    stores into the caller's record of slot [j] are the written count
    first and the needed count second, and the availability, when
    WITH_AVAILABILITY is requested, as the last (third) element. *)
Theorem xfb_GetResults_written_then_needed
  (PalToVkResult : PalResult -> VkResult) (pPalQueryPools : nat -> bool)
  (backend : PalBackend) (startQuery queryCount dataSize stride flags : N)
  (needed written availability : nat -> N) :
  let pool := {| m_queryType := VK_QUERY_TYPE_TRANSFORM_FEEDBACK_STREAM_EXT;
                 m_pPalQueryPool := pPalQueryPools |} in
  let elems := numXfbQueryDataElems flags in
  let reply := backend (N.lor flags VK_QUERY_RESULT_64_BIT) startQuery queryCount
                 (u64 (8 * elems * queryCount)) (8 * elems) in
  let result := PalToVkResult (reply_result reply) in
  0 < queryCount ->
  result = VK_SUCCESS \/ result = VK_NOT_READY ->
  (forall j : nat, (j < N.to_nat queryCount)%nat ->
     reply_words reply (N.of_nat j * elems) = needed j
     /\ reply_words reply (N.of_nat j * elems + 1) = written j
     /\ reply_words reply (N.of_nat j * elems + 2) = availability j) ->
  snd (PalQueryPool_GetResults PalToVkResult pool backend
         startQuery queryCount dataSize stride flags)
  = flat_map
      (fun j : nat =>
         let off := N.of_nat j * (if stride =? 0 then 8 * elems else stride) in
         (if is_VK_SUCCESS result || has_flag flags VK_QUERY_RESULT_PARTIAL_BIT
          then [store_elem flags off 0 (written j); store_elem flags off 1 (needed j)]
          else [])
         ++ (if has_flag flags VK_QUERY_RESULT_WITH_AVAILABILITY_BIT
             then [store_elem flags off 2 (availability j)] else []))
      (seq 0 (N.to_nat queryCount)).
Proof.
  cbv zeta. intros Hq Hres Hwords.
  pose proof (PalQueryPool_GetResults_xfb PalToVkResult pPalQueryPools backend
                startQuery queryCount dataSize stride flags) as L.
  cbv zeta in L. rewrite L by assumption. cbn [snd].
  apply flat_map_ext_In. intros j Hj. apply in_seq in Hj.
  destruct (Hwords j ltac:(lia)) as (-> & -> & ->). reflexivity.
Qed.

Lemma xfb_GetResults_written_then_needed_witness :
  snd (PalQueryPool_GetResults sample_PalToVkResult sample_xfb_pool sample_backend
         0 2 48 24 5)
  = [Store64 0 101; Store64 8 100; Store64 16 102;
     Store64 24 104; Store64 32 103; Store64 40 105].
Proof.
  unfold sample_xfb_pool.
  rewrite (xfb_GetResults_written_then_needed sample_PalToVkResult (fun _ => true)
             sample_backend 0 2 48 24 5
             (fun j => 100 + N.of_nat j * 3)
             (fun j => 100 + N.of_nat j * 3 + 1)
             (fun j => 100 + N.of_nat j * 3 + 2)).
  - reflexivity.
  - reflexivity.
  - left; reflexivity.
  - intros j Hj. change (numXfbQueryDataElems 5) with 3.
    cbv [sample_backend reply_words]. repeat split; lia.
Defined.

(** C7, as amended.  In stream-output read-back with stride 0 the
    destination advances, between consecutive records, by 8 * (2, or 3
    with availability) bytes: the size of the back end's 64-bit record.
    That is the natural size of a record of the caller's format when the
    caller asked for 64-bit values, and twice that size when the caller
    asked for 32-bit values. *)
Theorem xfb_GetResults_zero_stride
  (PalToVkResult : PalResult -> VkResult) (pPalQueryPools : nat -> bool)
  (backend : PalBackend) (startQuery queryCount dataSize flags : N) :
  let pool := {| m_queryType := VK_QUERY_TYPE_TRANSFORM_FEEDBACK_STREAM_EXT;
                 m_pPalQueryPool := pPalQueryPools |} in
  let elems := numXfbQueryDataElems flags in
  let reply := backend (N.lor flags VK_QUERY_RESULT_64_BIT) startQuery queryCount
                 (u64 (8 * elems * queryCount)) (8 * elems) in
  let result := PalToVkResult (reply_result reply) in
  0 < queryCount ->
  result = VK_SUCCESS \/ result = VK_NOT_READY ->
  snd (PalQueryPool_GetResults PalToVkResult pool backend
         startQuery queryCount dataSize 0 flags)
  = flat_map
      (fun j : nat =>
         spec_xfb_record flags (N.of_nat j * (8 * elems))
           (reply_words reply (N.of_nat j * elems))
           (reply_words reply (N.of_nat j * elems + 1))
           (reply_words reply (N.of_nat j * elems + 2))
           (is_VK_SUCCESS result || has_flag flags VK_QUERY_RESULT_PARTIAL_BIT))
      (seq 0 (N.to_nat queryCount))
  /\ 8 * elems
     = if has_flag flags VK_QUERY_RESULT_64_BIT
       then spec_xfb_record_size flags else 2 * spec_xfb_record_size flags.
Proof.
  cbv zeta. intros Hq Hres.
  pose proof (PalQueryPool_GetResults_xfb PalToVkResult pPalQueryPools backend
                startQuery queryCount dataSize 0 flags) as L.
  cbv zeta in L. rewrite L by assumption. cbn [snd]. split; [reflexivity|].
  unfold spec_xfb_record_size, numXfbQueryDataElems.
  destruct (has_flag flags VK_QUERY_RESULT_64_BIT);
    destruct (has_flag flags VK_QUERY_RESULT_WITH_AVAILABILITY_BIT); reflexivity.
Qed.

Lemma xfb_GetResults_zero_stride_witness :
  snd (PalQueryPool_GetResults sample_PalToVkResult sample_xfb_pool sample_backend
         0 2 64 0 0)
  = [Store32 0 101; Store32 4 100; Store32 16 103; Store32 20 102]
  /\ 8 * numXfbQueryDataElems 0 = 2 * spec_xfb_record_size 0.
Proof.
  unfold sample_xfb_pool.
  destruct (xfb_GetResults_zero_stride sample_PalToVkResult (fun _ => true)
              sample_backend 0 2 64 0) as [Hstores Hsize].
  - reflexivity.
  - left; reflexivity.
  - split; [rewrite Hstores; reflexivity | exact Hsize].
Defined.

(** With 32-bit values, no availability and stride 0, the second record
    is stored 16 bytes after the first, not the 8 bytes that a record of
    the caller's format takes. *)
Lemma xfb_zero_stride_is_not_the_callers_record_size :
  spec_xfb_record_size 0 = 8
  /\ snd (PalQueryPool_GetResults sample_PalToVkResult sample_xfb_pool sample_backend
            0 2 64 0 0)
     <> flat_map (fun j : nat =>
                    spec_xfb_record 0 (N.of_nat j * spec_xfb_record_size 0)
                      (100 + N.of_nat j * 2) (100 + N.of_nat j * 2 + 1) 0 true)
          (seq 0 2).
Proof.
  split; [reflexivity|]. vm_compute. discriminate.
Qed.

(** C6.  When the caller does not set the 64-bit flag, every store of a
    counter is a 32-bit store of the source value modulo 2^32, in the
    timestamp read-back and in the stream-output read-back; the status
    of the call does not depend on the size of the values. *)
Theorem results_32_bit_wrap (flags : N)
  (H32 : has_flag flags VK_QUERY_RESULT_64_BIT = false) :
  (forall (TimestampNotReady : N) (fuel : nat) (mem : VolatileMem)
          (pool : TimestampQueryPool) (startQuery queryCount dataSize stride : N)
          (clock : nat),
     let r := TimestampQueryPool_GetResults TimestampNotReady fuel mem pool startQuery
                queryCount dataSize stride flags clock in
     let reads := TimestampQueryPool_reads TimestampNotReady fuel mem pool startQuery
                    queryCount dataSize stride flags clock in
     stores_of r
     = flat_map
         (fun x : N * N * bool =>
            let '(dstSlot, value, ready) := x in
            (if ready then [Store32 (u64 (dstSlot * stride)) (value mod 2 ^ 32)] else [])
            ++ (if has_flag flags VK_QUERY_RESULT_WITH_AVAILABILITY_BIT
                then [Store32 (u64 (dstSlot * stride) + 4) (N.b2n ready)] else []))
         reads
     /\ (forall dstSlot value ready, In (dstSlot, value, ready) reads ->
         exists t, value = mem t (srcSlotOffset pool startQuery dstSlot))
     /\ (forall e, status_of r = Some e -> e = VK_SUCCESS \/ e = VK_NOT_READY))
  /\ (forall (PalToVkResult : PalResult -> VkResult) (pPalQueryPools : nat -> bool)
             (backend : PalBackend) (startQuery queryCount dataSize stride : N),
        let pool := {| m_queryType := VK_QUERY_TYPE_TRANSFORM_FEEDBACK_STREAM_EXT;
                       m_pPalQueryPool := pPalQueryPools |} in
        let elems := numXfbQueryDataElems flags in
        let reply := backend (N.lor flags VK_QUERY_RESULT_64_BIT) startQuery queryCount
                       (u64 (8 * elems * queryCount)) (8 * elems) in
        let result := PalToVkResult (reply_result reply) in
        0 < queryCount ->
        result = VK_SUCCESS \/ result = VK_NOT_READY ->
        PalQueryPool_GetResults PalToVkResult pool backend
          startQuery queryCount dataSize stride flags
        = (result,
           flat_map
             (fun j : nat =>
                let off := N.of_nat j * (if stride =? 0 then 8 * elems else stride) in
                (if is_VK_SUCCESS result || has_flag flags VK_QUERY_RESULT_PARTIAL_BIT
                 then [Store32 off (reply_words reply (N.of_nat j * elems + 1) mod 2 ^ 32);
                       Store32 (off + 4) (reply_words reply (N.of_nat j * elems) mod 2 ^ 32)]
                 else [])
                ++ (if has_flag flags VK_QUERY_RESULT_WITH_AVAILABILITY_BIT
                    then [Store32 (off + 8)
                            (reply_words reply (N.of_nat j * elems + 2) mod 2 ^ 32)]
                    else []))
             (seq 0 (N.to_nat queryCount)))).
Proof.
  split.
  - intros TimestampNotReady fuel mem pool startQuery queryCount dataSize stride clock
      r reads.
    split; [|split].
    + unfold r. rewrite GetResults_stores. fold reads.
      apply flat_map_ext. intros [[dstSlot value] ready]. cbn [fst snd].
      unfold write_slot. rewrite H32. reflexivity.
    + intros dstSlot value ready Hin.
      apply GetResults_reads_sound in Hin as (_ & _ & Ht). exact Ht.
    + intros e. apply GetResults_status_cases.
  - cbv zeta. intros PalToVkResult pPalQueryPools backend startQuery queryCount
      dataSize stride Hq Hres.
    pose proof (PalQueryPool_GetResults_xfb PalToVkResult pPalQueryPools backend
                  startQuery queryCount dataSize stride flags) as L.
    cbv zeta in L. rewrite L by assumption. f_equal.
    apply flat_map_ext. intros j.
    unfold spec_xfb_record, store_elem. rewrite H32.
    rewrite N.mul_0_r, N.add_0_r. reflexivity.
Qed.

Lemma results_32_bit_wrap_witness :
  stores_of (TimestampQueryPool_GetResults sample_NotReady 0 sample_mem sample_pool
               2 1 4 4 0 0)
  = [Store32 0 7]
  /\ sample_mem 0%nat (srcSlotOffset sample_pool 2 0) = 2 ^ 32 + 7.
Proof.
  destruct (results_32_bit_wrap 0 eq_refl) as [Htimestamp _].
  destruct (Htimestamp sample_NotReady 0%nat sample_mem sample_pool 2 1 4 4 0%nat)
    as (Hstores & _ & _).
  split; [rewrite Hstores; reflexivity | reflexivity].
Defined.

(** ** Reset of a timestamp pool *)

(** The eight bytes of a word, least significant first, make up the word. *)
Lemma bytes_of_word (v : N) :
  byte_of v 0 + 2 ^ 8 * byte_of v 1 + 2 ^ 16 * byte_of v 2 + 2 ^ 24 * byte_of v 3
  + 2 ^ 32 * byte_of v 4 + 2 ^ 40 * byte_of v 5 + 2 ^ 48 * byte_of v 6
  + 2 ^ 56 * byte_of v 7
  = v mod 2 ^ 64.
Proof.
  unfold byte_of.
  change (2 ^ 64) with (256 * (256 * (256 * (256 * (256 * (256 * (256 * 256))))))).
  rewrite !N.Div0.mod_mul_r, !N.Div0.div_div.
  change (2 ^ (8 * 0)) with 1. rewrite N.div_1_r.
  change (2 ^ (8 * 1)) with 256.
  change (2 ^ (8 * 2)) with (256 * 256).
  change (2 ^ (8 * 3)) with (256 * 256 * 256).
  change (2 ^ (8 * 4)) with (256 * 256 * 256 * 256).
  change (2 ^ (8 * 5)) with (256 * 256 * 256 * 256 * 256).
  change (2 ^ (8 * 6)) with (256 * 256 * 256 * 256 * 256 * 256).
  change (2 ^ (8 * 7)) with (256 * 256 * 256 * 256 * 256 * 256 * 256).
  change (2 ^ 8) with 256.
  change (2 ^ 16) with (256 * 256).
  change (2 ^ 24) with (256 * 256 * 256).
  change (2 ^ 32) with (256 * 256 * 256 * 256).
  change (2 ^ 40) with (256 * 256 * 256 * 256 * 256).
  change (2 ^ 48) with (256 * 256 * 256 * 256 * 256 * 256).
  change (2 ^ 56) with (256 * 256 * 256 * 256 * 256 * 256 * 256).
  ring.
Qed.

Lemma load64_of_bytes (m : Bytes) (a v : N) :
  (forall k, k < 8 -> m (a + k) = byte_of v k) ->
  load64 m a = v mod 2 ^ 64.
Proof.
  intros H. unfold load64.
  rewrite <- (N.add_0_r a) at 1.
  rewrite !H by lia. apply bytes_of_word.
Qed.

Section ResetFacts.

Variable TimestampNotReady : N.

(** The loop fills the words [idx .. idx + n) from [base] and nothing else. *)
Lemma fill_not_ready_spec (base : N) :
  forall (n : nat) (idx : N) (m : Bytes) (a : N),
    fill_not_ready TimestampNotReady n base idx m a
    = if (base + 8 * idx <=? a) && (a <? base + 8 * (idx + N.of_nat n))
      then byte_of TimestampNotReady ((a - base) mod 8)
      else m a.
Proof.
  induction n as [|n IH]; intros idx m a.
  - cbn [fill_not_ready].
    destruct (N.leb_spec (base + 8 * idx) a);
      destruct (N.ltb_spec a (base + 8 * (idx + N.of_nat 0))); cbn [andb];
      try reflexivity; lia.
  - cbn [fill_not_ready]. rewrite IH. unfold write_bytes.
    destruct (N.leb_spec (base + 8 * (idx + 1)) a);
      destruct (N.ltb_spec a (base + 8 * (idx + 1 + N.of_nat n)));
      destruct (N.leb_spec (base + 8 * idx) a);
      destruct (N.ltb_spec a (base + 8 * (idx + N.of_nat (S n))));
      destruct (N.ltb_spec a (base + 8 * idx + 8));
      cbn [andb]; try reflexivity; try lia.
    f_equal.
    apply N.mod_unique with (q := idx); lia.
Qed.

End ResetFacts.

Lemma whole_words (slotSize count : N) :
  slotSize mod 8 = 0 -> 8 * (slotSize * count / 8) = slotSize * count.
Proof.
  intros H.
  pose proof (N.div_mod' slotSize 8) as E. rewrite H, N.add_0_r in E.
  rewrite E at 1.
  replace (8 * (slotSize / 8) * count) with (slotSize / 8 * count * 8) by lia.
  rewrite N.div_mul by lia. lia.
Qed.

(** C5.  Reset of a timestamp pool whose slots are whole 64-bit words and
    whose size fits the 32-bit arithmetic of the code: with [startQuery]
    in range it stores the not-ready word over exactly the words of the
    slots [startQuery, startQuery + min(queryCount, entryCount -
    startQuery)) of every replica that maps, and leaves every other byte
    and every replica that does not map as it was; with [startQuery] at
    or beyond the entry count it changes nothing. *)
Theorem timestamp_Reset_effect (TimestampNotReady : N) (pool : TimestampQueryPool)
  (replicas : list Replica) (startQuery queryCount : N) :
  let count := N.min queryCount (m_entryCount pool - startQuery) in
  let first := m_slotSize pool * startQuery in
  let last := m_slotSize pool * (startQuery + count) in
  let replicas' :=
    TimestampQueryPool_Reset TimestampNotReady pool replicas startQuery queryCount in
  (m_entryCount pool <= startQuery -> replicas' = replicas)
  /\ (startQuery < m_entryCount pool ->
      m_slotSize pool * m_entryCount pool < 2 ^ 32 ->
      m_slotSize pool mod 8 = 0 ->
      length replicas' = length replicas
      /\ forall (deviceIdx : nat) (r : Replica),
           nth_error replicas deviceIdx = Some r ->
           exists r', nth_error replicas' deviceIdx = Some r'
             /\ mapResult r' = mapResult r
             /\ (mapResult r <> Success -> r' = r)
             /\ (mapResult r = Success ->
                 (forall a, first <= a -> a + 8 <= last -> (a - first) mod 8 = 0 ->
                    load64 (gpuMem r') a = TimestampNotReady mod 2 ^ 64)
                 /\ (forall a, first <= a < last ->
                       gpuMem r' a = byte_of TimestampNotReady ((a - first) mod 8))
                 /\ (forall a, a < first \/ last <= a -> gpuMem r' a = gpuMem r a))).
Proof.
  intros count first last replicas'. split.
  - intros Hout. unfold replicas', TimestampQueryPool_Reset.
    destruct (N.ltb_spec startQuery (m_entryCount pool)); [lia|reflexivity].
  - intros Hin Hsize Hwords.
    unfold replicas', TimestampQueryPool_Reset.
    destruct (N.ltb_spec startQuery (m_entryCount pool)); [|lia].
    fold count. split; [apply length_map|].
    intros deviceIdx r Hr.
    exists (reset_replica TimestampNotReady pool startQuery
              (u32 (u32 (m_slotSize pool * count) / 8)) r).
    split; [rewrite nth_error_map, Hr; reflexivity|].
    unfold reset_replica, is_Success.
    destruct (PalResult_eq_dec (mapResult r) Success) as [Hmap|Hmap];
      cbn [mapResult gpuMem].
    2:{ split; [reflexivity|]. split; [reflexivity|]. intros Hok; contradiction. }
    split; [reflexivity|]. split; [intros Hko; contradiction|]. intros _.
    assert (Hcount : count <= m_entryCount pool - startQuery) by (unfold count; lia).
    assert (Hbytes : m_slotSize pool * count < 2 ^ 32) by nia.
    assert (Hfirst : m_slotSize pool * startQuery < 2 ^ 32) by nia.
    pose proof (whole_words (m_slotSize pool) count Hwords) as Hwhole.
    rewrite (u32_small (m_slotSize pool * count)) by exact Hbytes.
    rewrite (u32_small (m_slotSize pool * count / 8))
      by (pose proof (N.Div0.div_le_upper_bound (m_slotSize pool * count) 8
                        (m_slotSize pool * count)); lia).
    rewrite (u32_small (m_slotSize pool * startQuery)) by exact Hfirst.
    fold first.
    assert (Hlast : first + 8 * (0 + N.of_nat (N.to_nat (m_slotSize pool * count / 8)))
                    = last).
    { rewrite N2Nat.id, N.add_0_l, Hwhole. unfold first, last. lia. }
    assert (Hbyte : forall a,
               fill_not_ready TimestampNotReady
                 (N.to_nat (m_slotSize pool * count / 8)) first 0 (gpuMem r) a
               = if (first <=? a) && (a <? last)
                 then byte_of TimestampNotReady ((a - first) mod 8)
                 else gpuMem r a).
    { intros a. rewrite fill_not_ready_spec, Hlast, N.mul_0_r, N.add_0_r.
      reflexivity. }
    split; [|split].
    + intros a Hlo Hhi Haligned. apply load64_of_bytes. intros k Hk.
      rewrite Hbyte.
      destruct (N.leb_spec first (a + k)); [|lia].
      destruct (N.ltb_spec (a + k) last); [|lia]. cbn [andb]. f_equal.
      symmetry. apply N.mod_unique with (q := (a - first) / 8); [lia|].
      pose proof (N.div_mod' (a - first) 8). lia.
    + intros a Ha. rewrite Hbyte.
      destruct (N.leb_spec first a); [|lia].
      destruct (N.ltb_spec a last); [|lia]. reflexivity.
    + intros a Ha. rewrite Hbyte.
      destruct (N.leb_spec first a); destruct (N.ltb_spec a last); cbn [andb];
        try reflexivity; lia.
Qed.

Lemma timestamp_Reset_effect_witness :
  exists r',
    nth_error
      (TimestampQueryPool_Reset sample_NotReady sample_pool
         [{| mapResult := Success; gpuMem := sample_bytes |};
          {| mapResult := ErrorUnknown; gpuMem := sample_bytes |}] 1 2) 0
    = Some r'
    /\ load64 (gpuMem r') 8 = sample_NotReady mod 2 ^ 64
    /\ gpuMem r' 7 = sample_bytes 7
    /\ gpuMem r' 24 = sample_bytes 24.
Proof.
  destruct (timestamp_Reset_effect sample_NotReady sample_pool
              [{| mapResult := Success; gpuMem := sample_bytes |};
               {| mapResult := ErrorUnknown; gpuMem := sample_bytes |}] 1 2)
    as [_ Hin].
  destruct (Hin ltac:(reflexivity) ltac:(reflexivity) ltac:(reflexivity))
    as [_ Hreplica].
  destruct (Hreplica 0%nat {| mapResult := Success; gpuMem := sample_bytes |} eq_refl)
    as (r' & Hnth & _ & _ & Hmapped).
  destruct (Hmapped eq_refl) as (Hwords & _ & Hrest).
  exists r'. split; [exact Hnth|]. split; [|split].
  - apply Hwords; [discriminate | discriminate | reflexivity].
  - apply Hrest. left. reflexivity.
  - apply Hrest. right. discriminate.
Defined.

(** On a pool of 2^29 + 1 slots of 8 bytes the byte count of the range
    wraps in the 32-bit arithmetic: a reset of the whole pool stores one
    word only, and slot 1, which is inside the range, keeps its bytes and
    does not hold the not-ready word. *)
Lemma timestamp_Reset_byte_count_wraps :
  0 < m_entryCount {| m_entryCount := 2 ^ 29 + 1; m_slotSize := 8 |}
  /\ 0 <= 1 < 0 + N.min (2 ^ 29 + 1) (2 ^ 29 + 1 - 0)
  /\ exists r',
       nth_error
         (TimestampQueryPool_Reset sample_NotReady
            {| m_entryCount := 2 ^ 29 + 1; m_slotSize := 8 |}
            [{| mapResult := Success; gpuMem := sample_bytes |}] 0 (2 ^ 29 + 1)) 0
       = Some r'
       /\ load64 (gpuMem r') 0 = sample_NotReady
       /\ load64 (gpuMem r') (8 * 1) = load64 sample_bytes (8 * 1)
       /\ load64 (gpuMem r') (8 * 1) <> sample_NotReady mod 2 ^ 64.
Proof.
  split; [reflexivity|]. split; [split; [discriminate|reflexivity]|].
  eexists. split; [reflexivity|].
  split; [vm_compute; reflexivity|].
  split; [vm_compute; reflexivity|].
  vm_compute. discriminate.
Qed.

(** ** Creation and destruction of the hardware-delegating pool *)

Local Open Scope nat_scope.

Lemma count_occ_optional (b : bool) (x e : Event) :
  count_occ Event_eq_dec (if b then [x] else []) e
  = if b then (if Event_eq_dec x e then 1 else 0) else 0.
Proof. destruct b; simpl; [destruct (Event_eq_dec x e)|]; reflexivity. Qed.

Lemma count_destroy_pools (pools : nat -> bool) :
  forall (n deviceIdx i : nat),
    count_occ Event_eq_dec (destroy_pools pools n deviceIdx) (EvDestroyQueryPool i)
    = if (deviceIdx <=? i) && (i <? deviceIdx + n) && pools i then 1 else 0.
Proof.
  induction n as [|n IH]; intros d i; cbn [destroy_pools].
  - simpl. destruct (Nat.leb_spec d i); destruct (Nat.ltb_spec i (d + 0));
      cbn [andb]; try reflexivity; lia.
  - rewrite count_occ_app, count_occ_optional, IH.
    destruct (Event_eq_dec (EvDestroyQueryPool d) (EvDestroyQueryPool i)) as [E|E].
    + injection E as <-.
      destruct (Nat.leb_spec (S d) d); [lia|].
      destruct (Nat.leb_spec d d); [|lia].
      destruct (Nat.ltb_spec d (d + S n)); [|lia].
      cbn [andb]. destruct (pools d); reflexivity.
    + assert (d <> i) by congruence.
      destruct (Nat.leb_spec (S d) i); destruct (Nat.ltb_spec i (S d + n));
        destruct (Nat.leb_spec d i); destruct (Nat.ltb_spec i (d + S n));
        cbn [andb]; destruct (pools d); destruct (pools i);
        try reflexivity; lia.
Qed.

Lemma count_destroy_pools_other (pools : nat -> bool) (e : Event) :
  (forall i, e <> EvDestroyQueryPool i) ->
  forall (n deviceIdx : nat),
    count_occ Event_eq_dec (destroy_pools pools n deviceIdx) e = 0.
Proof.
  intros He. induction n as [|n IH]; intros d; cbn [destroy_pools]; [reflexivity|].
  rewrite count_occ_app, count_occ_optional, IH.
  destruct (pools d); [|reflexivity].
  destruct (Event_eq_dec (EvDestroyQueryPool d) e) as [E|E]; [|reflexivity].
  exfalso. apply (He d). now symmetry.
Qed.

Lemma destroy_pools_prefix (pools : nat -> bool) :
  forall (n deviceIdx k : nat),
    k <= n ->
    (forall i, deviceIdx <= i < deviceIdx + n -> pools i = (i <? deviceIdx + k)) ->
    destroy_pools pools n deviceIdx = map EvDestroyQueryPool (seq deviceIdx k).
Proof.
  induction n as [|n IH]; intros d k Hk Hp; cbn [destroy_pools].
  - replace k with 0 by lia. reflexivity.
  - rewrite (Hp d) by lia. destruct k as [|k].
    + destruct (Nat.ltb_spec d (d + 0)); [lia|]. cbn [app].
      rewrite (IH (S d) 0); [reflexivity|lia|].
      intros i Hi. rewrite Hp by lia.
      destruct (Nat.ltb_spec i (d + 0)); destruct (Nat.ltb_spec i (S d + 0));
        try reflexivity; lia.
    + destruct (Nat.ltb_spec d (d + S k)); [|lia]. cbn [app seq map]. f_equal.
      apply IH; [lia|].
      intros i Hi. rewrite Hp by lia.
      destruct (Nat.ltb_spec i (d + S k)); destruct (Nat.ltb_spec i (S d + k));
        try reflexivity; lia.
Qed.

Section CreateFacts.

Variable PalToVkResult : PalResult -> VkResult.
Variable dev : Device.

(** What the construction loop leaves behind: the pointers set are those
    of the objects it created, all of them for devices it visited. *)
Lemma create_pools_ledger :
  forall (n deviceIdx : nat) (palResult : PalResult) (result : VkResult)
         (pools : nat -> bool) (result' : VkResult) (pools' : nat -> bool)
         (events : list Event),
    create_pools PalToVkResult dev n deviceIdx palResult result pools
    = (result', pools', events) ->
    (forall i, deviceIdx <= i -> pools i = false) ->
    (forall i, i < deviceIdx -> pools' i = pools i)
    /\ (forall i, pools' i = true -> deviceIdx <= i -> i < deviceIdx + n)
    /\ (forall i, count_occ Event_eq_dec events (EvCreateQueryPool i)
                  = if (deviceIdx <=? i) && pools' i then 1 else 0)
    /\ (forall e, (forall i, e <> EvCreateQueryPool i) ->
                  count_occ Event_eq_dec events e = 0).
Proof.
  induction n as [|n IH]; intros d palResult result pools result' pools' events
    Hrun Hfresh; cbn [create_pools] in Hrun.
  - injection Hrun as <- <- <-. repeat split.
    + intros i Hi Hd. rewrite Hfresh in Hi by exact Hd. discriminate.
    + intros i. simpl. destruct (Nat.leb_spec d i); [|reflexivity].
      now rewrite Hfresh.
  - destruct (is_Success palResult).
    2:{ injection Hrun as <- <- <-. repeat split.
        - intros i Hi Hd. rewrite Hfresh in Hi by exact Hd. discriminate.
        - intros i. simpl. destruct (Nat.leb_spec d i); [|reflexivity].
          now rewrite Hfresh. }
    destruct (CreateQueryPool dev d) as [palResult1 created].
    destruct (create_pools PalToVkResult dev n (S d) palResult1
                (PalToVkResult palResult1)
                (if created then set_pool pools d true else pools))
      as [[result1 pools1] events1] eqn:Hrec.
    injection Hrun as <- <- <-.
    apply IH in Hrec as (Hbelow & Hbound & Hcount & Hother).
    2:{ intros i Hi. destruct created; [unfold set_pool|]; rewrite ?Hfresh by lia.
        - destruct (Nat.eqb_spec i d); [lia|reflexivity].
        - reflexivity. }
    assert (Hd : pools1 d = created).
    { rewrite Hbelow by lia. destruct created; [unfold set_pool|].
      - now rewrite Nat.eqb_refl.
      - apply Hfresh. lia. }
    repeat split.
    + intros i Hi. rewrite Hbelow by lia.
      destruct created; [unfold set_pool|reflexivity].
      destruct (Nat.eqb_spec i d); [lia|reflexivity].
    + intros i Hi Hge. destruct (Nat.eq_dec i d) as [->|Hne]; [lia|].
      specialize (Hbound i Hi). lia.
    + intros i. rewrite count_occ_app, count_occ_optional, Hcount.
      destruct (Event_eq_dec (EvCreateQueryPool d) (EvCreateQueryPool i)) as [E|E].
      * injection E as <-. rewrite Hd.
        destruct (Nat.leb_spec (S d) d); [lia|].
        destruct (Nat.leb_spec d d); [|lia]. cbn [andb].
        destruct created; reflexivity.
      * assert (d <> i) by congruence.
        destruct (Nat.leb_spec (S d) i); destruct (Nat.leb_spec d i);
          cbn [andb]; destruct created; try reflexivity; lia.
    + intros e He. rewrite count_occ_app, count_occ_optional, (Hother e He).
      destruct created; [|reflexivity].
      destruct (Event_eq_dec (EvCreateQueryPool d) e) as [E|E]; [|reflexivity].
      exfalso. apply (He d). now symmetry.
Qed.

End CreateFacts.

Section CreateRuns.

Variable PalToVkResult : PalResult -> VkResult.
Variable dev : Device.

(** The loop when the first [k] devices succeed and device [k] fails. *)
Lemma create_pools_fails_at :
  forall (k n deviceIdx : nat) (result : VkResult) (pools : nat -> bool)
         (palResult : PalResult),
    k < n ->
    (forall i, i < k -> CreateQueryPool dev (deviceIdx + i) = (Success, true)) ->
    CreateQueryPool dev (deviceIdx + k) = (palResult, false) ->
    palResult <> Success ->
    exists pools',
      create_pools PalToVkResult dev n deviceIdx Success result pools
      = (PalToVkResult palResult, pools',
         map EvCreateQueryPool (seq deviceIdx k))
      /\ forall i, pools' i
                   = pools i || ((deviceIdx <=? i) && (i <? deviceIdx + k)).
Proof.
  induction k as [|k IH]; intros n d result pools palResult Hk Hok Hfail Hne;
    destruct n as [|n]; try lia; cbn [create_pools is_Success].
  - rewrite Nat.add_0_r in Hfail.
    destruct (PalResult_eq_dec Success Success) as [_|]; [|congruence].
    rewrite Hfail.
    exists pools. split.
    + destruct n as [|n]; cbn [create_pools]; [reflexivity|].
      unfold is_Success.
      destruct (PalResult_eq_dec palResult Success); [contradiction|reflexivity].
    + intros i. destruct (Nat.leb_spec d i); destruct (Nat.ltb_spec i (d + 0));
        cbn [andb]; rewrite ?orb_false_r; try reflexivity; lia.
  - destruct (PalResult_eq_dec Success Success) as [_|]; [|congruence].
    pose proof (Hok 0 ltac:(lia)) as H0. rewrite Nat.add_0_r in H0. rewrite H0.
    destruct (IH n (S d) (PalToVkResult Success) (set_pool pools d true) palResult)
      as (pools' & Hrun & Hpools); try assumption; try lia.
    + intros i Hi. replace (S d + i) with (d + S i) by lia. apply Hok. lia.
    + now replace (S d + k) with (d + S k) by lia.
    + rewrite Hrun. exists pools'. split; [reflexivity|].
      intros i. rewrite Hpools. unfold set_pool.
      destruct (Nat.eqb_spec i d); destruct (Nat.leb_spec (S d) i);
        destruct (Nat.ltb_spec i (S d + k)); destruct (Nat.leb_spec d i);
        destruct (Nat.ltb_spec i (d + S k)); cbn [andb orb];
        rewrite ?orb_false_r, ?orb_true_r; try reflexivity; lia.
Qed.

(** The loop when every device succeeds. *)
Lemma create_pools_all_succeed :
  forall (n deviceIdx : nat) (pools : nat -> bool),
    PalToVkResult Success = VK_SUCCESS ->
    (forall i, i < n -> CreateQueryPool dev (deviceIdx + i) = (Success, true)) ->
    exists pools',
      create_pools PalToVkResult dev n deviceIdx Success VK_SUCCESS pools
      = (VK_SUCCESS, pools', map EvCreateQueryPool (seq deviceIdx n))
      /\ forall i, pools' i
                   = pools i || ((deviceIdx <=? i) && (i <? deviceIdx + n)).
Proof.
  induction n as [|n IH]; intros d pools Hconv Hok; cbn [create_pools is_Success].
  - exists pools. split; [reflexivity|].
    intros i. destruct (Nat.leb_spec d i); destruct (Nat.ltb_spec i (d + 0));
      cbn [andb]; rewrite ?orb_false_r; try reflexivity; lia.
  - destruct (PalResult_eq_dec Success Success) as [_|]; [|congruence].
    pose proof (Hok 0 ltac:(lia)) as H0. rewrite Nat.add_0_r in H0. rewrite H0.
    rewrite Hconv.
    destruct (IH (S d) (set_pool pools d true) Hconv) as (pools' & Hrun & Hpools).
    + intros i Hi. replace (S d + i) with (d + S i) by lia. apply Hok. lia.
    + rewrite Hrun. exists pools'. split; [reflexivity|].
      intros i. rewrite Hpools. unfold set_pool.
      destruct (Nat.eqb_spec i d); destruct (Nat.leb_spec (S d) i);
        destruct (Nat.ltb_spec i (S d + n)); destruct (Nat.leb_spec d i);
        destruct (Nat.ltb_spec i (d + S n)); cbn [andb orb];
        rewrite ?orb_false_r, ?orb_true_r; try reflexivity; lia.
Qed.

End CreateRuns.

Lemma is_VK_SUCCESS_true (r : VkResult) : is_VK_SUCCESS r = true <-> r = VK_SUCCESS.
Proof.
  unfold is_VK_SUCCESS. destruct (VkResult_eq_dec r VK_SUCCESS); split;
    intros H; try reflexivity; try assumption; try discriminate; contradiction.
Qed.

(** The trace of a failed creation releases what it acquired. *)
Lemma failure_trace_balanced (pAllocator : option Allocator) (created : list Event)
  (pools : nat -> bool) (n : nat) :
  (forall i, count_occ Event_eq_dec created (EvCreateQueryPool i)
             = if pools i then 1 else 0) ->
  (forall e, (forall i, e <> EvCreateQueryPool i) ->
             count_occ Event_eq_dec created e = 0) ->
  (forall i, pools i = true -> i < n) ->
  no_resource_survives
    (EvAllocApiObject pAllocator :: created ++ []
     ++ destroy_pools pools n 0 ++ [EvFreeApiObject pAllocator]).
Proof.
  intros Hcount Hother Hbound. unfold no_resource_survives.
  cbn [app]. split; [|split].
  - intros a. cbn [count_occ]. rewrite !count_occ_app. cbn [count_occ].
    rewrite (Hother (EvAllocApiObject a)), (Hother (EvFreeApiObject a))
      by (intros i; discriminate).
    rewrite !count_destroy_pools_other by (intros i; discriminate).
    destruct (Event_eq_dec (EvAllocApiObject pAllocator) (EvAllocApiObject a)) as [E|E];
      destruct (Event_eq_dec (EvFreeApiObject pAllocator) (EvFreeApiObject a)) as [F|F];
      destruct (Event_eq_dec (EvAllocApiObject pAllocator) (EvFreeApiObject a));
      destruct (Event_eq_dec (EvFreeApiObject pAllocator) (EvAllocApiObject a));
      try discriminate; try reflexivity; exfalso; congruence.
  - intros i. cbn [count_occ]. rewrite !count_occ_app. cbn [count_occ].
    rewrite Hcount, count_destroy_pools.
    rewrite count_destroy_pools_other by (intros j; discriminate).
    destruct (Event_eq_dec (EvAllocApiObject pAllocator) (EvCreateQueryPool i));
      destruct (Event_eq_dec (EvAllocApiObject pAllocator) (EvDestroyQueryPool i));
      destruct (Event_eq_dec (EvFreeApiObject pAllocator) (EvCreateQueryPool i));
      destruct (Event_eq_dec (EvFreeApiObject pAllocator) (EvDestroyQueryPool i));
      try discriminate.
    rewrite (Hother (EvDestroyQueryPool i)) by (intros j; discriminate).
    specialize (Hbound i).
    destruct (pools i); [|rewrite andb_false_r; lia].
    destruct (Nat.leb_spec 0 i); [|lia].
    destruct (Nat.ltb_spec i (0 + n)); [reflexivity|].
    specialize (Hbound eq_refl). lia.
  - cbn [count_occ]. rewrite !count_occ_app. cbn [count_occ].
    rewrite (Hother EvAllocAndBindGpuMem), (Hother EvFreeGpuMem)
      by (intros i; discriminate).
    rewrite !count_destroy_pools_other by (intros i; discriminate).
    destruct (Event_eq_dec (EvAllocApiObject pAllocator) EvAllocAndBindGpuMem);
      destruct (Event_eq_dec (EvAllocApiObject pAllocator) EvFreeGpuMem);
      destruct (Event_eq_dec (EvFreeApiObject pAllocator) EvAllocAndBindGpuMem);
      destruct (Event_eq_dec (EvFreeApiObject pAllocator) EvFreeGpuMem);
      try discriminate; reflexivity.
Qed.

(** C1.  Creation of the hardware-delegating pool is all-or-nothing.  A
    call that does not return [VK_SUCCESS] writes no pool and every
    resource it acquired is released in the same call.  When the back
    end fails on device [k] after succeeding on the devices before it,
    the call creates the objects of devices [0, k), destroys exactly
    those and frees the host block, and returns the converted error.
    When the allocate-and-bind of GPU memory fails, the objects of all
    devices are destroyed and the host block is freed. *)
Theorem PalQueryPool_Create_all_or_nothing
  (PalToVkResult : PalResult -> VkResult) (dev : Device) (queryType : VkQueryType)
  (pAllocator : option Allocator) :
  let r := PalQueryPool_Create PalToVkResult dev queryType pAllocator in
  let result := fst (fst r) in
  let pool := snd (fst r) in
  let events := snd r in
  let unwound := fun k : nat =>
    EvAllocApiObject pAllocator
    :: map EvCreateQueryPool (seq 0 k) ++ map EvDestroyQueryPool (seq 0 k)
    ++ [EvFreeApiObject pAllocator] in
  (result <> VK_SUCCESS -> pool = None /\ no_resource_survives events)
  /\ (forall (k : nat) (palResult : PalResult),
        AllocApiObject dev = true -> GetQueryPoolSize dev = Success ->
        k < NumPalDevices dev ->
        (forall i, i < k -> CreateQueryPool dev i = (Success, true)) ->
        CreateQueryPool dev k = (palResult, false) ->
        palResult <> Success -> PalToVkResult palResult <> VK_SUCCESS ->
        result = PalToVkResult palResult /\ pool = None /\ events = unwound k)
  /\ (AllocApiObject dev = true -> GetQueryPoolSize dev = Success ->
      PalToVkResult Success = VK_SUCCESS ->
      (forall i, i < NumPalDevices dev -> CreateQueryPool dev i = (Success, true)) ->
      AllocAndBindGpuMem dev <> VK_SUCCESS ->
      result = AllocAndBindGpuMem dev /\ pool = None
      /\ events = unwound (NumPalDevices dev)).
Proof.
  intros r result pool events unwound. split; [|split].
  - unfold result, pool, events, r, PalQueryPool_Create.
    destruct (AllocApiObject dev); cbn [negb].
    2:{ intros _. cbn [fst snd]. split; [reflexivity|].
        unfold no_resource_survives. cbn [count_occ]. auto. }
    destruct (create_pools PalToVkResult dev (NumPalDevices dev) 0
                (GetQueryPoolSize dev) VK_SUCCESS (fun _ => false))
      as [[result1 pools1] created] eqn:Hloop.
    apply create_pools_ledger in Hloop as (_ & Hbound & Hcount & Hother);
      [|reflexivity].
    assert (Hbalanced : no_resource_survives
              (EvAllocApiObject pAllocator :: created ++ []
               ++ destroy_pools pools1 (NumPalDevices dev) 0
               ++ [EvFreeApiObject pAllocator])).
    { apply failure_trace_balanced.
      - intros i. rewrite Hcount. reflexivity.
      - exact Hother.
      - intros i Hi. apply (Hbound i Hi). lia. }
    destruct (is_VK_SUCCESS result1) eqn:Hfirst.
    + destruct (is_VK_SUCCESS (AllocAndBindGpuMem dev)) eqn:Hbind; cbn [fst snd].
      * apply is_VK_SUCCESS_true in Hbind. intros H. contradiction.
      * intros _. split; [reflexivity|exact Hbalanced].
    + rewrite Hfirst. cbn [fst snd]. intros _. split; [reflexivity|exact Hbalanced].
  - intros k palResult Halloc Hsize Hk Hok Hfail Hne Herr.
    unfold result, pool, events, r, PalQueryPool_Create.
    rewrite Halloc, Hsize. cbn [negb].
    destruct (create_pools_fails_at PalToVkResult dev k (NumPalDevices dev) 0
                VK_SUCCESS (fun _ => false) palResult Hk)
      as (pools' & Hrun & Hpools); try assumption.
    rewrite Hrun.
    assert (Hno : is_VK_SUCCESS (PalToVkResult palResult) = false).
    { destruct (is_VK_SUCCESS (PalToVkResult palResult)) eqn:E; [|reflexivity].
      apply is_VK_SUCCESS_true in E. contradiction. }
    rewrite Hno, Hno. cbn [fst snd app]. repeat split.
    unfold unwound. f_equal. f_equal.
    rewrite (destroy_pools_prefix pools' (NumPalDevices dev) 0 k); [reflexivity|lia|].
    intros i Hi. rewrite Hpools. cbn [orb]. destruct (Nat.leb_spec 0 i); [|lia].
    reflexivity.
  - intros Halloc Hsize Hconv Hok Hbind.
    unfold result, pool, events, r, PalQueryPool_Create.
    rewrite Halloc, Hsize. cbn [negb].
    destruct (create_pools_all_succeed PalToVkResult dev (NumPalDevices dev) 0
                (fun _ => false) Hconv)
      as (pools' & Hrun & Hpools); [exact Hok|].
    rewrite Hrun.
    assert (Hno : is_VK_SUCCESS (AllocAndBindGpuMem dev) = false).
    { destruct (is_VK_SUCCESS (AllocAndBindGpuMem dev)) eqn:E; [|reflexivity].
      apply is_VK_SUCCESS_true in E. contradiction. }
    change (is_VK_SUCCESS VK_SUCCESS) with true. cbv iota.
    rewrite Hno. cbn [fst snd app]. repeat split.
    unfold unwound. f_equal. f_equal.
    rewrite (destroy_pools_prefix pools' (NumPalDevices dev) 0 (NumPalDevices dev));
      [reflexivity|lia|].
    intros i Hi. rewrite Hpools. cbn [orb]. destruct (Nat.leb_spec 0 i); [|lia].
    reflexivity.
Qed.

Lemma PalQueryPool_Create_all_or_nothing_witness :
  PalQueryPool_Create sample_PalToVkResult sample_device_create_fails
    VK_QUERY_TYPE_OCCLUSION None
  = (VK_ERROR_OUT_OF_HOST_MEMORY, None,
     [EvAllocApiObject None; EvCreateQueryPool 0; EvCreateQueryPool 1;
      EvDestroyQueryPool 0; EvDestroyQueryPool 1; EvFreeApiObject None])
  /\ no_resource_survives
       (snd (PalQueryPool_Create sample_PalToVkResult sample_device_bind_fails
               VK_QUERY_TYPE_OCCLUSION None)).
Proof.
  destruct (PalQueryPool_Create_all_or_nothing sample_PalToVkResult
              sample_device_create_fails VK_QUERY_TYPE_OCCLUSION None)
    as (_ & Hfails & _).
  assert (Hfirst : forall i, i < 2 ->
            CreateQueryPool sample_device_create_fails i = (Success, true)).
  { intros [|[|i]] Hi; try reflexivity; lia. }
  destruct (Hfails 2 ErrorOutOfMemory eq_refl eq_refl ltac:(simpl; lia) Hfirst eq_refl
              ltac:(discriminate) ltac:(discriminate))
    as (Hresult & Hpool & Hevents).
  destruct (PalQueryPool_Create_all_or_nothing sample_PalToVkResult
              sample_device_bind_fails VK_QUERY_TYPE_OCCLUSION None)
    as (Hany & _ & _).
  split.
  - destruct (PalQueryPool_Create sample_PalToVkResult sample_device_create_fails
                VK_QUERY_TYPE_OCCLUSION None) as [[result pool] events].
    cbn [fst snd] in Hresult, Hpool, Hevents. subst. reflexivity.
  - apply Hany. discriminate.
Defined.

(** C10.  [vkDestroyQueryPool] with a null pool handle does nothing: no
    destroy is dispatched and no resource is released, whatever the
    device and the allocator; a handle that is not null releases the
    host block of its pool. *)
Theorem vkDestroyQueryPool_null_handle (numPalDevices : nat)
  (defaultAllocator : Allocator) (pAllocator : option Allocator) :
  vkDestroyQueryPool numPalDevices defaultAllocator None pAllocator = []
  /\ forall object : QueryPool,
       vkDestroyQueryPool numPalDevices defaultAllocator (Some object) pAllocator
       <> [].
Proof.
  split; [reflexivity|].
  intros [pool|pool]; destruct pAllocator; cbn [vkDestroyQueryPool snd];
    unfold PalQueryPool_Destroy, TimestampQueryPool_Destroy; cbn [snd];
    try discriminate;
    intros H; apply app_eq_nil in H as [_ H]; discriminate.
Qed.

Local Open Scope N_scope.

(** * Further properties of the timestamp read-back *)

(** ** Words of the destination *)

Lemma bytes_of_word32 (v : N) :
  byte_of v 0 + 2 ^ 8 * byte_of v 1 + 2 ^ 16 * byte_of v 2 + 2 ^ 24 * byte_of v 3
  = v mod 2 ^ 32.
Proof.
  unfold byte_of.
  change (2 ^ 32) with (256 * (256 * (256 * 256))).
  rewrite !N.Div0.mod_mul_r, !N.Div0.div_div.
  change (2 ^ (8 * 0)) with 1. rewrite N.div_1_r.
  change (2 ^ (8 * 1)) with 256.
  change (2 ^ (8 * 2)) with (256 * 256).
  change (2 ^ (8 * 3)) with (256 * 256 * 256).
  change (2 ^ 8) with 256.
  change (2 ^ 16) with (256 * 256).
  change (2 ^ 24) with (256 * 256 * 256).
  ring.
Qed.

Lemma load32_of_bytes (m : Bytes) (a v : N) :
  (forall k, k < 4 -> m (a + k) = byte_of v k) ->
  load32 m a = v mod 2 ^ 32.
Proof.
  intros H. unfold load32.
  rewrite <- (N.add_0_r a) at 1.
  rewrite !H by lia. apply bytes_of_word32.
Qed.

(** The value bytes of a ready slot's record hold the value, in the width
    asked for, whatever was there before. *)
Lemma write_slot_value_bytes (flags off value : N) (m : Bytes) (a : N) :
  off <= a < off + queryValueSize flags ->
  apply_stores (write_slot flags off value true) m a
  = byte_of (if has_flag flags VK_QUERY_RESULT_64_BIT then value else u32 value)
      (a - off).
Proof.
  unfold write_slot, queryValueSize.
  case_flags flags; intros H; cbn [app]; unfold apply_stores; cbn [fold_left];
    unfold apply_store, write_bytes; cbn [store_off store_width store_val];
    case_offsets; cbn [andb]; try reflexivity; lia.
Qed.

(** The availability bytes of a record hold the readiness. *)
Lemma write_slot_availability_bytes (flags off value : N) (ready : bool)
  (m : Bytes) (a : N) :
  has_flag flags VK_QUERY_RESULT_WITH_AVAILABILITY_BIT = true ->
  off + queryValueSize flags <= a < off + 2 * queryValueSize flags ->
  apply_stores (write_slot flags off value ready) m a
  = byte_of (N.b2n ready) (a - (off + queryValueSize flags)).
Proof.
  unfold write_slot, queryValueSize. intros Havail. rewrite Havail.
  destruct (has_flag flags VK_QUERY_RESULT_64_BIT); destruct ready;
    intros H; cbn [app]; unfold apply_stores; cbn [fold_left];
    unfold apply_store, write_bytes; cbn [store_off store_width store_val];
    case_offsets; cbn [andb]; try reflexivity; lia.
Qed.

(** ** The order of the records *)

(** The loop reads the records in increasing order, each once. *)
Lemma slot_reads_split (TimestampNotReady : N) (fuel : nat) (mem : VolatileMem)
  (pool : TimestampQueryPool) (startQuery flags : N) :
  forall (n : nat) (dstSlot : N) (clock : nat)
         (before : list (N * N * bool)) (x : N * N * bool)
         (after : list (N * N * bool)),
    slot_reads TimestampNotReady fuel mem pool startQuery flags n dstSlot clock
    = before ++ x :: after ->
    Forall (fun y => fst (fst y) < fst (fst x)) before
    /\ Forall (fun y => fst (fst x) < fst (fst y)) after.
Proof.
  induction n as [|n IH]; intros dstSlot clock before x after E;
    cbn [slot_reads] in E.
  - destruct before; discriminate.
  - destruct (read_timestamp _ _ _ _ _ _) as [[[value ready] clock']|] eqn:R;
      [|destruct before; discriminate].
    destruct before as [|y before]; cbn [app] in E; injection E as Ehead Etail.
    + subst x. split; [constructor|].
      apply Forall_forall. intros [[d v] r] Hin. rewrite <- Etail in Hin.
      apply slot_reads_sound in Hin as (Hd & _). cbn [fst]. lia.
    + subst y. destruct (IH _ _ _ _ _ Etail) as [Hbefore Hafter].
      split; [|exact Hafter]. constructor; [|exact Hbefore].
      cbn [fst].
      assert (Hin : In x (slot_reads TimestampNotReady fuel mem pool startQuery flags
                            n (dstSlot + 1) clock')).
      { rewrite Etail. apply in_elt. }
      destruct x as [[d v] r]. apply slot_reads_sound in Hin as (Hd & _).
      cbn [fst]. lia.
Qed.

(** ** What a read-back leaves in the destination *)

Section ReadBack.

Variable TimestampNotReady : N.
Variables (fuel : nat) (mem : VolatileMem) (pool : TimestampQueryPool).
Variables (startQuery queryCount dataSize stride flags : N) (clock : nat).

Let reads := TimestampQueryPool_reads TimestampNotReady fuel mem pool startQuery
               queryCount dataSize stride flags clock.
Let outcome := TimestampQueryPool_GetResults TimestampNotReady fuel mem pool startQuery
                 queryCount dataSize stride flags clock.

Hypothesis size_t_range : dataSize < 2 ^ 64.
Hypothesis records_apart : querySlotSize flags <= stride.

(** With records that do not overlap, the bytes of a record are those its
    own stores left. *)
Lemma record_bytes (dest : Bytes) (d v : N) (ready : bool) (a : N) :
  In (d, v, ready) reads ->
  d * stride <= a < d * stride + querySlotSize flags ->
  exists m : Bytes,
    apply_stores (stores_of outcome) dest a
    = apply_stores (write_slot flags (d * stride) v ready) m a
    /\ m a = dest a
    /\ d * stride + querySlotSize flags <= dataSize.
Proof.
  intros Hin Ha.
  assert (Hfit := clampedCount_fits queryCount dataSize stride flags).
  assert (Hidx : forall x, In x reads ->
            fst (fst x) < clampedCount queryCount dataSize stride flags).
  { intros [[d' v'] r'] Hx. apply GetResults_reads_sound in Hx as (Hd & _).
    exact Hd. }
  assert (Hoff : forall x, In x reads -> u64 (fst (fst x) * stride) = fst (fst x) * stride).
  { intros x Hx. apply u64_small. specialize (Hidx x Hx). nia. }
  assert (Hbound : d * stride + querySlotSize flags <= dataSize).
  { specialize (Hidx _ Hin). cbn [fst] in Hidx. nia. }
  destruct (in_split _ _ Hin) as (before & after & Esplit).
  assert (Horder : Forall (fun y => fst (fst y) < d) before
                   /\ Forall (fun y => d < fst (fst y)) after).
  { unfold reads, TimestampQueryPool_reads in Esplit.
    destruct (0 <? queryCount); [|destruct before; discriminate].
    apply slot_reads_split in Esplit. exact Esplit. }
  destruct Horder as [Hbefore Hafter].
  assert (Huntouched : forall l,
            (forall y, In y l -> In y reads) ->
            Forall (fun y => fst (fst y) <> d) l ->
            forall m : Bytes,
              apply_stores
                (flat_map (fun x => write_slot flags (u64 (fst (fst x) * stride))
                                      (snd (fst x)) (snd x)) l) m a
              = m a).
  { intros l Hl Hne m. apply apply_stores_untouched.
    apply Forall_flat_map, Forall_forall. intros y Hy.
    rewrite (Hoff y (Hl y Hy)).
    eapply Forall_impl; [|apply write_slot_range].
    intros s [Hlo Hhi]. rewrite Forall_forall in Hne. specialize (Hne y Hy).
    destruct (N.lt_ge_cases (fst (fst y)) d); [right|left]; nia. }
  exists (apply_stores
            (flat_map (fun x => write_slot flags (u64 (fst (fst x) * stride))
                                  (snd (fst x)) (snd x)) before) dest).
  split; [|split; [|exact Hbound]].
  - unfold outcome. rewrite GetResults_stores. fold reads. rewrite Esplit.
    rewrite flat_map_app. cbn [flat_map fst snd].
    rewrite !apply_stores_app.
    rewrite Huntouched.
    + pose proof (Hoff (d, v, ready) Hin) as Hd. cbn [fst] in Hd.
      rewrite Hd. reflexivity.
    + intros y Hy. rewrite Esplit. apply in_or_app. right. now right.
    + eapply Forall_impl; [|exact Hafter]. intros y Hy. cbn beta in Hy. lia.
  - apply Huntouched.
    + intros y Hy. rewrite Esplit. apply in_or_app. now left.
    + eapply Forall_impl; [|exact Hbefore]. intros y Hy. cbn beta in Hy. lia.
Qed.

(** X1.  A read-back whose records do not overlap leaves, in the record
    of every slot it read as ready, the slot's value in the width asked
    for (the exact 64-bit word, or the word modulo 2^32), and, when
    availability is asked for, the readiness (1 or 0) right after the
    value; the record lies inside the caller's buffer. *)
Theorem timestamp_GetResults_copies_ready_values (dest : Bytes) (d v : N)
  (ready : bool) :
  In (d, v, ready) reads ->
  let final := apply_stores (stores_of outcome) dest in
  (ready = true ->
   if has_flag flags VK_QUERY_RESULT_64_BIT
   then load64 final (d * stride) = v mod 2 ^ 64
   else load32 final (d * stride) = v mod 2 ^ 32)
  /\ (has_flag flags VK_QUERY_RESULT_WITH_AVAILABILITY_BIT = true ->
      if has_flag flags VK_QUERY_RESULT_64_BIT
      then load64 final (d * stride + 8) = N.b2n ready
      else load32 final (d * stride + 4) = N.b2n ready)
  /\ d * stride + querySlotSize flags <= dataSize
  /\ (exists t, v = mem t (srcSlotOffset pool startQuery d)).
Proof.
  intros Hin final.
  assert (Hsizes : queryValueSize flags <= querySlotSize flags
                   /\ (has_flag flags VK_QUERY_RESULT_WITH_AVAILABILITY_BIT = true ->
                       querySlotSize flags = 2 * queryValueSize flags)).
  { unfold querySlotSize.
    destruct (has_flag flags VK_QUERY_RESULT_WITH_AVAILABILITY_BIT);
      split; try discriminate; intros; lia. }
  destruct Hsizes as [Hvalue Havailable].
  split; [|split; [|split]].
  - intros ->.
    assert (Hbytes : forall k, k < queryValueSize flags ->
              final (d * stride + k)
              = byte_of (if has_flag flags VK_QUERY_RESULT_64_BIT then v else u32 v) k).
    { intros k Hk.
      destruct (record_bytes dest d v true (d * stride + k) Hin ltac:(lia))
        as (m & Hfinal & _ & _).
      unfold final. rewrite Hfinal, write_slot_value_bytes by lia.
      f_equal. lia. }
    unfold queryValueSize in Hbytes.
    destruct (has_flag flags VK_QUERY_RESULT_64_BIT).
    + apply load64_of_bytes. exact Hbytes.
    + rewrite (load32_of_bytes final (d * stride) (u32 v)) by exact Hbytes.
      unfold u32. apply N.Div0.mod_mod.
  - intros Havail. specialize (Havailable Havail).
    assert (Hbytes : forall k, k < queryValueSize flags ->
              final (d * stride + queryValueSize flags + k)
              = byte_of (N.b2n ready) k).
    { intros k Hk.
      destruct (record_bytes dest d v ready (d * stride + queryValueSize flags + k)
                  Hin ltac:(lia)) as (m & Hfinal & _ & _).
      unfold final.
      rewrite Hfinal, write_slot_availability_bytes by (assumption || lia).
      f_equal. lia. }
    unfold queryValueSize in Hbytes.
    destruct (has_flag flags VK_QUERY_RESULT_64_BIT).
    + rewrite (load64_of_bytes final (d * stride + 8) (N.b2n ready)) by exact Hbytes.
      destruct ready; reflexivity.
    + rewrite (load32_of_bytes final (d * stride + 4) (N.b2n ready)) by exact Hbytes.
      destruct ready; reflexivity.
  - destruct (record_bytes dest d v ready (d * stride) Hin) as (_ & _ & _ & H);
      [|exact H].
    pose proof (querySlotSize_pos flags). lia.
  - apply GetResults_reads_sound in Hin as (_ & _ & Ht). exact Ht.
Qed.

End ReadBack.

Lemma timestamp_GetResults_copies_ready_values_witness :
  load64
    (apply_stores
       (stores_of (TimestampQueryPool_GetResults sample_NotReady 0 sample_mem
                     sample_pool 0 2 32 16 5 0)) sample_bytes) 0
  = 5
  /\ load64
       (apply_stores
          (stores_of (TimestampQueryPool_GetResults sample_NotReady 0 sample_mem
                        sample_pool 0 2 32 16 5 0)) sample_bytes) 8
     = 1.
Proof.
  destruct (timestamp_GetResults_copies_ready_values sample_NotReady 0 sample_mem
              sample_pool 0 2 32 16 5 0 eq_refl ltac:(vm_compute; discriminate)
              sample_bytes 0 5 true ltac:(left; reflexivity))
    as (Hvalue & Havailable & _).
  split; [exact (Hvalue eq_refl) | exact (Havailable eq_refl)].
Defined.

(** ** Edges of the timestamp read-back *)

(** X2.  When the caller's buffer is smaller than one record (or than the
    stride), the read-back examines no slot: it returns [VK_SUCCESS]
    without reading the pool or storing anything, whatever the slots
    hold and even under WAIT. *)
Theorem timestamp_GetResults_buffer_too_small
  (TimestampNotReady : N) (fuel : nat) (mem : VolatileMem) (pool : TimestampQueryPool)
  (startQuery queryCount dataSize stride flags : N) (clock : nat) :
  dataSize < N.max (querySlotSize flags) stride ->
  TimestampQueryPool_GetResults TimestampNotReady fuel mem pool startQuery
    queryCount dataSize stride flags clock
  = (Some VK_SUCCESS, [], clock).
Proof.
  intros Hsmall. unfold TimestampQueryPool_GetResults, clampedCount.
  destruct (0 <? queryCount); [|reflexivity].
  rewrite N.div_small by exact Hsmall.
  change (u32 0) with 0. rewrite N.min_r by lia. reflexivity.
Qed.

Lemma timestamp_GetResults_buffer_too_small_witness :
  TimestampQueryPool_GetResults sample_NotReady 0 sample_mem sample_pool
    1 3 15 0 7 4
  = (Some VK_SUCCESS, [], 4%nat).
Proof.
  apply timestamp_GetResults_buffer_too_small. reflexivity.
Defined.

(** X3.  A read-back under WAIT that returns, returns [VK_SUCCESS]: it
    has read every examined slot, each as ready with a word that is not
    the sentinel. *)
Theorem timestamp_GetResults_wait_success
  (TimestampNotReady : N) (fuel : nat) (mem : VolatileMem) (pool : TimestampQueryPool)
  (startQuery queryCount dataSize stride flags : N) (clock : nat) (e : VkResult) :
  has_flag flags VK_QUERY_RESULT_WAIT_BIT = true ->
  status_of (TimestampQueryPool_GetResults TimestampNotReady fuel mem pool startQuery
               queryCount dataSize stride flags clock) = Some e ->
  let reads := TimestampQueryPool_reads TimestampNotReady fuel mem pool startQuery
                 queryCount dataSize stride flags clock in
  e = VK_SUCCESS
  /\ length reads
     = (if 0 <? queryCount
        then N.to_nat (clampedCount queryCount dataSize stride flags) else 0%nat)
  /\ Forall (fun x => snd x = true /\ snd (fst x) <> TimestampNotReady) reads.
Proof.
  intros Hwait Hstatus reads.
  assert (Hready : Forall (fun x => snd x = true /\ snd (fst x) <> TimestampNotReady)
                     reads).
  { apply Forall_forall. intros [[d v] r] Hin. cbn [fst snd].
    unfold reads, TimestampQueryPool_reads in Hin.
    destruct (0 <? queryCount); [|contradiction].
    pose proof (slot_reads_wait_ready _ _ _ _ _ Hwait _ _ _ _ _ _ _ Hin) as Hr.
    apply slot_reads_sound in Hin as (_ & Hrv & _).
    split; [exact Hr|]. rewrite Hr in Hrv. symmetry in Hrv.
    apply negb_true_iff, N.eqb_neq in Hrv. exact Hrv. }
  unfold reads in *. unfold TimestampQueryPool_reads in *.
  destruct (N.ltb_spec 0 queryCount) as [Hq|Hq].
  - destruct (GetResults_unfold TimestampNotReady fuel mem pool startQuery queryCount
                dataSize stride flags clock Hq) as (Hunfold & _ & _).
    rewrite Hunfold, slot_loop_status in Hstatus. cbv zeta in Hstatus.
    destruct (Nat.eqb_spec
                (length (slot_reads TimestampNotReady fuel mem pool startQuery flags
                   (N.to_nat (clampedCount queryCount dataSize stride flags)) 0 clock))
                (N.to_nat (clampedCount queryCount dataSize stride flags)))
      as [Elen|Elen]; [|discriminate].
    split; [|split; [exact Elen|exact Hready]].
    cbn [option_map] in Hstatus.
    assert (Hall : forallb snd
                     (slot_reads TimestampNotReady fuel mem pool startQuery flags
                        (N.to_nat (clampedCount queryCount dataSize stride flags))
                        0 clock) = true).
    { apply forallb_forall. intros x Hx.
      rewrite Forall_forall in Hready. apply (Hready x Hx). }
    rewrite Hall in Hstatus. now injection Hstatus as <-.
  - unfold TimestampQueryPool_GetResults in Hstatus.
    destruct (N.ltb_spec 0 queryCount); [lia|].
    unfold status_of in Hstatus; cbn [fst] in Hstatus.
    injection Hstatus as <-. split; [reflexivity|]. split; [reflexivity|constructor].
Qed.

Lemma timestamp_GetResults_wait_success_witness :
  length (TimestampQueryPool_reads sample_NotReady 3 sample_mem sample_pool
            2 2 16 8 3 0) = 2%nat.
Proof.
  destruct (timestamp_GetResults_wait_success sample_NotReady 3 sample_mem sample_pool
              2 2 16 8 3 0 VK_SUCCESS eq_refl eq_refl) as (_ & Hlen & _).
  exact Hlen.
Defined.

(** X4.  For a pool whose slots hold at least one 64-bit word
    ([8 <= slotSize]) and whose byte size fits 32 bits, a read-back of a
    range inside the pool ([startQuery + queryCount <= entryCount]) reads
    only inside the pool's memory: the word of record [d] is read at byte
    offset [slotSize * (startQuery + d)], the start of slot
    [startQuery + d], and the 8 bytes read there, like the whole slot,
    end within the [slotSize * entryCount] bytes of the pool. *)
Theorem timestamp_GetResults_reads_inside_pool
  (TimestampNotReady : N) (fuel : nat) (mem : VolatileMem) (pool : TimestampQueryPool)
  (startQuery queryCount dataSize stride flags : N) (clock : nat)
  (d v : N) (ready : bool) :
  8 <= m_slotSize pool ->
  m_slotSize pool * m_entryCount pool < 2 ^ 32 ->
  startQuery + queryCount <= m_entryCount pool ->
  In (d, v, ready)
     (TimestampQueryPool_reads TimestampNotReady fuel mem pool startQuery
        queryCount dataSize stride flags clock) ->
  let addr := srcSlotOffset pool startQuery d in
  d < queryCount
  /\ addr = m_slotSize pool * (startQuery + d)
  /\ addr + 8 <= m_slotSize pool * m_entryCount pool
  /\ addr + m_slotSize pool <= m_slotSize pool * m_entryCount pool
  /\ exists t, v = mem t addr.
Proof.
  intros Hword Hsize Hrange Hin addr.
  apply GetResults_reads_sound in Hin as (Hd & _ & t & Hv).
  assert (Hdq : d < queryCount) by (unfold clampedCount in Hd; lia).
  assert (Hoff : addr = m_slotSize pool * (startQuery + d)).
  { unfold addr, srcSlotOffset.
    assert (m_entryCount pool < 2 ^ 32) by nia.
    rewrite (u32_small (d + startQuery)) by lia.
    rewrite u32_small by nia. lia. }
  split; [exact Hdq|]. split; [exact Hoff|].
  assert (Hslot : addr + m_slotSize pool <= m_slotSize pool * m_entryCount pool)
    by (rewrite Hoff; nia).
  split; [lia|]. split; [exact Hslot|].
  exists t. exact Hv.
Qed.

Lemma timestamp_GetResults_reads_inside_pool_witness :
  srcSlotOffset sample_pool 2 1 = 24
  /\ srcSlotOffset sample_pool 2 1 + 8 <= m_slotSize sample_pool * m_entryCount sample_pool.
Proof.
  destruct (timestamp_GetResults_reads_inside_pool sample_NotReady 0 sample_mem
              sample_pool 2 2 32 8 1 0 1 4294967303 true
              ltac:(discriminate) eq_refl ltac:(discriminate)
              ltac:(right; left; reflexivity))
    as (_ & Hoff & Hword & _).
  split; [rewrite Hoff; reflexivity | exact Hword].
Defined.

(** * Further properties of the timestamp reset *)

Section ResetAgain.

Variable TimestampNotReady : N.
Variable pool : TimestampQueryPool.

(** The bytes of a replica after the loop body: the words filled, when
    the replica maps, and the bytes it had elsewhere. *)
Lemma reset_replica_spec (startQuery queryDataSize : N) (r : Replica) (a : N) :
  let base := u32 (m_slotSize pool * startQuery) in
  mapResult (reset_replica TimestampNotReady pool startQuery queryDataSize r)
  = mapResult r
  /\ gpuMem (reset_replica TimestampNotReady pool startQuery queryDataSize r) a
     = if is_Success (mapResult r)
          && ((base <=? a) && (a <? base + 8 * queryDataSize))
       then byte_of TimestampNotReady ((a - base) mod 8)
       else gpuMem r a.
Proof.
  intros base. unfold reset_replica.
  destruct (is_Success (mapResult r)); cbn [mapResult gpuMem andb];
    split; try reflexivity.
  fold base. rewrite fill_not_ready_spec, N.mul_0_r, N.add_0_r, N.add_0_l, N2Nat.id.
  reflexivity.
Qed.

(** X5.  Resetting the same range twice is resetting it once: the second
    reset changes no byte of any replica, and no reset changes the number
    of replicas or what mapping them returns. *)
Theorem timestamp_Reset_idempotent (replicas : list Replica)
  (startQuery queryCount : N) :
  let once := TimestampQueryPool_Reset TimestampNotReady pool replicas
                startQuery queryCount in
  let twice := TimestampQueryPool_Reset TimestampNotReady pool once
                 startQuery queryCount in
  length once = length replicas
  /\ length twice = length replicas
  /\ forall (deviceIdx : nat) (r1 : Replica),
       nth_error once deviceIdx = Some r1 ->
       exists r0 r2,
         nth_error replicas deviceIdx = Some r0
         /\ nth_error twice deviceIdx = Some r2
         /\ mapResult r1 = mapResult r0
         /\ mapResult r2 = mapResult r0
         /\ forall a, gpuMem r2 a = gpuMem r1 a.
Proof.
  intros once twice. unfold twice, once, TimestampQueryPool_Reset.
  destruct (startQuery <? m_entryCount pool).
  - rewrite !length_map. split; [reflexivity|]. split; [reflexivity|].
    intros deviceIdx r1 Hr1. rewrite nth_error_map in Hr1.
    destruct (nth_error replicas deviceIdx) as [r0|] eqn:Hr0; [|discriminate].
    cbn [option_map] in Hr1. injection Hr1 as <-.
    exists r0. eexists. split; [reflexivity|].
    split; [rewrite !nth_error_map, Hr0; reflexivity|].
    split; [apply reset_replica_spec; exact 0|].
    split.
    + destruct (reset_replica_spec startQuery
                  (u32 (u32 (m_slotSize pool
                             * N.min queryCount (m_entryCount pool - startQuery)) / 8))
                  r0 0) as [Hmap _].
      destruct (reset_replica_spec startQuery
                  (u32 (u32 (m_slotSize pool
                             * N.min queryCount (m_entryCount pool - startQuery)) / 8))
                  (reset_replica TimestampNotReady pool startQuery
                     (u32 (u32 (m_slotSize pool
                                * N.min queryCount (m_entryCount pool - startQuery)) / 8))
                     r0) 0) as [Hmap' _].
      now rewrite Hmap', Hmap.
    + intros a.
      destruct (reset_replica_spec startQuery
                  (u32 (u32 (m_slotSize pool
                             * N.min queryCount (m_entryCount pool - startQuery)) / 8))
                  r0 a) as [Hmap Hbytes].
      destruct (reset_replica_spec startQuery
                  (u32 (u32 (m_slotSize pool
                             * N.min queryCount (m_entryCount pool - startQuery)) / 8))
                  (reset_replica TimestampNotReady pool startQuery
                     (u32 (u32 (m_slotSize pool
                                * N.min queryCount (m_entryCount pool - startQuery)) / 8))
                     r0) a) as [_ Hbytes'].
      cbv zeta in Hbytes, Hbytes'. rewrite Hbytes', Hmap, Hbytes.
      destruct (is_Success (mapResult r0) && _); reflexivity.
  - split; [reflexivity|]. split; [reflexivity|].
    intros deviceIdx r1 Hr1. exists r1, r1. repeat split; assumption.
Qed.

End ResetAgain.

(** ** Reset, then read back *)

Section ResetThenRead.

Variable TimestampNotReady : N.
Variable pool : TimestampQueryPool.

Hypothesis sentinel_is_a_word : TimestampNotReady < 2 ^ 64.
Hypothesis pool_size_fits : m_slotSize pool * m_entryCount pool < 2 ^ 32.
Hypothesis whole_word_slots : m_slotSize pool mod 8 = 0.
Hypothesis slots_not_empty : 0 < m_slotSize pool.

(** After a reset, the first word of every slot of the range is the
    sentinel, in every replica that maps. *)
Lemma reset_slot_word (replicas : list Replica) (startQuery queryCount : N)
  (deviceIdx : nat) (r' : Replica) (slot : N) :
  startQuery < m_entryCount pool ->
  nth_error (TimestampQueryPool_Reset TimestampNotReady pool replicas
               startQuery queryCount) deviceIdx = Some r' ->
  mapResult r' = Success ->
  startQuery <= slot
  < startQuery + N.min queryCount (m_entryCount pool - startQuery) ->
  load64 (gpuMem r') (m_slotSize pool * slot) = TimestampNotReady.
Proof.
  intros Hstart Hnth Hmap Hslot.
  unfold TimestampQueryPool_Reset in Hnth.
  destruct (N.ltb_spec startQuery (m_entryCount pool)); [|lia].
  rewrite nth_error_map in Hnth.
  destruct (nth_error replicas deviceIdx) as [r|]; [|discriminate].
  cbn [option_map] in Hnth. injection Hnth as <-.
  set (count := N.min queryCount (m_entryCount pool - startQuery)) in *.
  assert (Hcount : count <= m_entryCount pool - startQuery) by (unfold count; lia).
  assert (Hbytes : m_slotSize pool * count < 2 ^ 32) by nia.
  assert (Hfirst : m_slotSize pool * startQuery < 2 ^ 32) by nia.
  pose proof (whole_words (m_slotSize pool) count whole_word_slots) as Hwhole.
  assert (Hq : u32 (u32 (m_slotSize pool * count) / 8) = m_slotSize pool * count / 8).
  { rewrite (u32_small (m_slotSize pool * count)) by exact Hbytes.
    apply u32_small.
    pose proof (N.Div0.div_le_upper_bound (m_slotSize pool * count) 8
                  (m_slotSize pool * count)). lia. }
  rewrite Hq in *.
  assert (Hsize8 : 8 <= m_slotSize pool).
  { pose proof (N.div_mod' (m_slotSize pool) 8). lia. }
  rewrite <- (N.mod_small TimestampNotReady (2 ^ 64)) at 2 by exact sentinel_is_a_word.
  apply load64_of_bytes. intros k Hk.
  destruct (reset_replica_spec TimestampNotReady pool startQuery
              (m_slotSize pool * count / 8) r (m_slotSize pool * slot + k))
    as [Hsame Hbyte].
  cbv zeta in Hbyte. rewrite Hbyte. rewrite Hsame in Hmap. rewrite Hmap.
  change (is_Success Success) with true. cbn [andb].
  rewrite (u32_small (m_slotSize pool * startQuery)) by exact Hfirst.
  rewrite Hwhole.
  destruct (N.leb_spec (m_slotSize pool * startQuery) (m_slotSize pool * slot + k));
    [|nia].
  destruct (N.ltb_spec (m_slotSize pool * slot + k)
              (m_slotSize pool * startQuery + m_slotSize pool * count)); [|nia].
  cbn [andb]. f_equal. symmetry.
  pose proof (N.div_mod' (m_slotSize pool) 8) as Hdiv.
  rewrite whole_word_slots, N.add_0_r in Hdiv.
  apply N.mod_unique with (q := m_slotSize pool / 8 * (slot - startQuery)); [lia|].
  nia.
Qed.

(** X6.  Reset followed by a read-back without WAIT, on pool memory that
    nothing writes in between: for every replica that maps, a read-back
    of slots inside the reset range that examines at least one slot
    returns [VK_NOT_READY] and stores no counter value, only the
    availability 0 of each examined slot when availability is asked for. *)
Theorem timestamp_Reset_then_GetResults (replicas : list Replica)
  (resetStart resetCount : N) (deviceIdx : nat) (r' : Replica)
  (fuel : nat) (startQuery queryCount dataSize stride flags : N) (clock : nat) :
  resetStart < m_entryCount pool ->
  nth_error (TimestampQueryPool_Reset TimestampNotReady pool replicas
               resetStart resetCount) deviceIdx = Some r' ->
  mapResult r' = Success ->
  resetStart <= startQuery ->
  startQuery + queryCount
  <= resetStart + N.min resetCount (m_entryCount pool - resetStart) ->
  has_flag flags VK_QUERY_RESULT_WAIT_BIT = false ->
  0 < clampedCount queryCount dataSize stride flags ->
  let outcome := TimestampQueryPool_GetResults TimestampNotReady fuel
                   (quiescent (gpuMem r')) pool startQuery queryCount dataSize
                   stride flags clock in
  status_of outcome = Some VK_NOT_READY
  /\ stores_of outcome
     = flat_map (fun i : nat =>
                   if has_flag flags VK_QUERY_RESULT_WITH_AVAILABILITY_BIT
                   then [store_elem flags (u64 (N.of_nat i * stride)) 1 0] else [])
         (seq 0 (N.to_nat (clampedCount queryCount dataSize stride flags))).
Proof.
  intros Hreset Hnth Hmap Hlo Hhi Hwait Hsome outcome.
  assert (Hq : 0 < queryCount) by (unfold clampedCount in Hsome; lia).
  assert (Hentries : m_entryCount pool < 2 ^ 32) by nia.
  set (n := N.to_nat (clampedCount queryCount dataSize stride flags)).
  assert (Hword : forall i : nat, (i < n)%nat ->
            quiescent (gpuMem r') (clock + i)%nat
              (srcSlotOffset pool startQuery (0 + N.of_nat i))
            = TimestampNotReady).
  { intros i Hi. unfold quiescent, srcSlotOffset.
    assert (Hi' : N.of_nat i < queryCount) by (unfold n, clampedCount in Hi; lia).
    rewrite (u32_small (0 + N.of_nat i + startQuery)) by lia.
    rewrite u32_small by nia.
    rewrite N.mul_comm.
    apply (reset_slot_word replicas resetStart resetCount deviceIdx r');
      try assumption. lia. }
  destruct (GetResults_unfold TimestampNotReady fuel (quiescent (gpuMem r')) pool
              startQuery queryCount dataSize stride flags clock Hq)
    as (Hstatus & Hstores & _).
  fold outcome in Hstatus, Hstores. fold n in Hstatus, Hstores.
  rewrite slot_loop_status in Hstatus. rewrite slot_loop_stores in Hstores.
  cbv zeta in Hstatus.
  rewrite (slot_reads_no_wait TimestampNotReady fuel (quiescent (gpuMem r')) pool
             startQuery flags Hwait) in Hstatus, Hstores.
  rewrite length_map, length_seq, Nat.eqb_refl, forallb_map' in Hstatus.
  rewrite flat_map_map in Hstores. cbn [fst snd] in Hstatus, Hstores.
  split.
  - rewrite Hstatus. cbn [option_map].
    destruct n as [|n'] eqn:En; [unfold n in En; lia|].
    cbn [seq forallb]. rewrite (Hword 0%nat) by lia.
    rewrite N.eqb_refl. reflexivity.
  - rewrite Hstores. apply flat_map_ext_In. intros i Hi. apply in_seq in Hi.
    rewrite (Hword i) by lia. rewrite N.eqb_refl. cbn [negb].
    rewrite write_slot_not_ready, N.add_0_l. reflexivity.
Qed.

End ResetThenRead.

Lemma timestamp_Reset_then_GetResults_witness :
  status_of
    (TimestampQueryPool_GetResults sample_NotReady 0
       (quiescent
          (gpuMem (reset_replica sample_NotReady sample_pool 1 2
                     {| mapResult := Success; gpuMem := sample_bytes |})))
       sample_pool 1 2 32 8 1 0)
  = Some VK_NOT_READY.
Proof.
  destruct (timestamp_Reset_then_GetResults sample_NotReady sample_pool
              eq_refl eq_refl eq_refl eq_refl
              [{| mapResult := Success; gpuMem := sample_bytes |}] 1 2 0%nat
              (reset_replica sample_NotReady sample_pool 1 2
                 {| mapResult := Success; gpuMem := sample_bytes |})
              0%nat 1 2 32 8 1 0%nat
              eq_refl eq_refl eq_refl ltac:(discriminate) ltac:(discriminate)
              eq_refl eq_refl) as [Hstatus _].
  exact Hstatus.
Defined.

(** * Further properties of the hardware-delegating pool *)

(** ** Stream-output read-back: what is stored, and where *)

Lemma is_VK_NOT_READY_true (r : VkResult) :
  is_VK_NOT_READY r = true <-> r = VK_NOT_READY.
Proof.
  unfold is_VK_NOT_READY. destruct (VkResult_eq_dec r VK_NOT_READY); split;
    intros H; try reflexivity; try assumption; try discriminate; contradiction.
Qed.

(** A status that is neither success nor not-ready stores nothing. *)
Lemma PalQueryPool_GetResults_xfb_error (PalToVkResult : PalResult -> VkResult)
  (pPalQueryPools : nat -> bool) (backend : PalBackend)
  (startQuery queryCount dataSize stride flags : N) :
  let pool := {| m_queryType := VK_QUERY_TYPE_TRANSFORM_FEEDBACK_STREAM_EXT;
                 m_pPalQueryPool := pPalQueryPools |} in
  let elems := numXfbQueryDataElems flags in
  let reply := backend (N.lor flags VK_QUERY_RESULT_64_BIT) startQuery queryCount
                 (u64 (8 * elems * queryCount)) (8 * elems) in
  let result := PalToVkResult (reply_result reply) in
  0 < queryCount ->
  result <> VK_SUCCESS -> result <> VK_NOT_READY ->
  PalQueryPool_GetResults PalToVkResult pool backend
    startQuery queryCount dataSize stride flags
  = (result, []).
Proof.
  intros pool elems reply result Hq Hs Hn.
  unfold PalQueryPool_GetResults. apply N.ltb_lt in Hq. rewrite Hq.
  cbn [pool m_queryType is_transform_feedback].
  fold elems. fold reply. fold result.
  destruct (is_VK_SUCCESS result) eqn:Es;
    [apply is_VK_SUCCESS_true in Es; contradiction|].
  destruct (is_VK_NOT_READY result) eqn:En;
    [apply is_VK_NOT_READY_true in En; contradiction|].
  reflexivity.
Qed.

Lemma spec_xfb_record_range (flags off needed written availability : N)
  (counters : bool) :
  Forall (fun s => off <= store_off s
                   /\ store_end s <= off + spec_xfb_record_size flags)
    (spec_xfb_record flags off needed written availability counters).
Proof.
  unfold spec_xfb_record, spec_xfb_record_size, store_elem, store_end.
  case_flags flags; destruct counters; simpl; repeat constructor; simpl; lia.
Qed.

(** X7.  In a stream-output read-back the two counters of a record are
    stored only when the call succeeded or the caller set PARTIAL, while
    the availability, when asked for, is stored for every slot: a status
    that is neither success nor not-ready stores nothing at all, and a
    not-ready status without PARTIAL stores the availability words and
    nothing else. *)
Theorem xfb_GetResults_counters_gated
  (PalToVkResult : PalResult -> VkResult) (pPalQueryPools : nat -> bool)
  (backend : PalBackend) (startQuery queryCount dataSize stride flags : N) :
  let pool := {| m_queryType := VK_QUERY_TYPE_TRANSFORM_FEEDBACK_STREAM_EXT;
                 m_pPalQueryPool := pPalQueryPools |} in
  let elems := numXfbQueryDataElems flags in
  let reply := backend (N.lor flags VK_QUERY_RESULT_64_BIT) startQuery queryCount
                 (u64 (8 * elems * queryCount)) (8 * elems) in
  let result := PalToVkResult (reply_result reply) in
  let stores := snd (PalQueryPool_GetResults PalToVkResult pool backend
                       startQuery queryCount dataSize stride flags) in
  let off := fun j : nat => N.of_nat j * (if stride =? 0 then 8 * elems else stride) in
  0 < queryCount ->
  (result <> VK_SUCCESS -> result <> VK_NOT_READY -> stores = [])
  /\ (result = VK_NOT_READY ->
      has_flag flags VK_QUERY_RESULT_PARTIAL_BIT = false ->
      stores
      = flat_map
          (fun j : nat =>
             if has_flag flags VK_QUERY_RESULT_WITH_AVAILABILITY_BIT
             then [store_elem flags (off j) 2
                     (reply_words reply (N.of_nat j * elems + 2))]
             else [])
          (seq 0 (N.to_nat queryCount)))
  /\ (result = VK_NOT_READY ->
      has_flag flags VK_QUERY_RESULT_PARTIAL_BIT = true ->
      stores
      = flat_map
          (fun j : nat =>
             spec_xfb_record flags (off j)
               (reply_words reply (N.of_nat j * elems))
               (reply_words reply (N.of_nat j * elems + 1))
               (reply_words reply (N.of_nat j * elems + 2)) true)
          (seq 0 (N.to_nat queryCount))).
Proof.
  cbv zeta. intros Hq.
  pose proof (PalQueryPool_GetResults_xfb PalToVkResult pPalQueryPools backend
                startQuery queryCount dataSize stride flags) as L.
  pose proof (PalQueryPool_GetResults_xfb_error PalToVkResult pPalQueryPools backend
                startQuery queryCount dataSize stride flags) as E.
  cbv zeta in L, E. split; [|split].
  - intros Hs Hn. rewrite E by assumption. reflexivity.
  - intros Hn Hpartial. rewrite L by first [assumption | right; assumption]. cbn [snd].
    rewrite Hn, Hpartial. cbn [orb].
    change (is_VK_SUCCESS VK_NOT_READY) with false.
    apply flat_map_ext. intros j. unfold spec_xfb_record. reflexivity.
  - intros Hn Hpartial. rewrite L by first [assumption | right; assumption]. cbn [snd].
    rewrite Hn, Hpartial, orb_true_r. reflexivity.
Qed.

Lemma xfb_GetResults_counters_gated_witness :
  snd (PalQueryPool_GetResults
         (fun _ => VK_NOT_READY) sample_xfb_pool sample_backend 0 2 64 0 5)
  = [Store64 16 102; Store64 40 105].
Proof.
  unfold sample_xfb_pool.
  destruct (xfb_GetResults_counters_gated (fun _ => VK_NOT_READY) (fun _ => true)
              sample_backend 0 2 64 0 5 eq_refl) as (_ & Hgated & _).
  rewrite (Hgated eq_refl eq_refl). reflexivity.
Defined.

(** X8.  A stream-output read-back stays inside the caller's buffer when
    the records fit the effective stride and the strides fit the buffer:
    with the effective stride (the caller's stride, or [8 * elems], the
    size of the back end's 64-bit record, when the caller passes 0) at
    least the size of a record in the caller's format, and [queryCount]
    effective strides no more than [dataSize], no store ends beyond
    [dataSize]. *)
Theorem xfb_GetResults_within_dataSize_when_strides_fit
  (PalToVkResult : PalResult -> VkResult) (pPalQueryPools : nat -> bool)
  (backend : PalBackend) (startQuery queryCount dataSize stride flags : N) :
  let pool := {| m_queryType := VK_QUERY_TYPE_TRANSFORM_FEEDBACK_STREAM_EXT;
                 m_pPalQueryPool := pPalQueryPools |} in
  let stride' := if stride =? 0 then 8 * numXfbQueryDataElems flags else stride in
  spec_xfb_record_size flags <= stride' ->
  queryCount * stride' <= dataSize ->
  Forall (fun s => store_end s <= dataSize)
    (snd (PalQueryPool_GetResults PalToVkResult pool backend
            startQuery queryCount dataSize stride flags)).
Proof.
  cbv zeta. intros Hrecord Hfit.
  destruct (N.ltb_spec 0 queryCount) as [Hq|Hq].
  2:{ unfold PalQueryPool_GetResults.
      destruct (N.ltb_spec 0 queryCount); [lia|constructor]. }
  pose proof (PalQueryPool_GetResults_xfb PalToVkResult pPalQueryPools backend
                startQuery queryCount dataSize stride flags) as L.
  pose proof (PalQueryPool_GetResults_xfb_error PalToVkResult pPalQueryPools backend
                startQuery queryCount dataSize stride flags) as E.
  cbv zeta in L, E.
  set (result := PalToVkResult
                   (reply_result
                      (backend (N.lor flags VK_QUERY_RESULT_64_BIT) startQuery
                         queryCount
                         (u64 (8 * numXfbQueryDataElems flags * queryCount))
                         (8 * numXfbQueryDataElems flags)))) in *.
  destruct (VkResult_eq_dec result VK_SUCCESS) as [Hs|Hs];
    [|destruct (VkResult_eq_dec result VK_NOT_READY) as [Hn|Hn]].
  3:{ rewrite E by assumption. constructor. }
  all: rewrite L by first [assumption | left; assumption | right; assumption];
    cbn [snd];
    apply Forall_flat_map, Forall_forall; intros j Hj; apply in_seq in Hj;
    (eapply Forall_impl; [|apply spec_xfb_record_range]);
    intros s [_ Hend]; cbn beta in Hend; nia.
Qed.

Lemma xfb_GetResults_within_dataSize_when_strides_fit_witness :
  Forall (fun s => store_end s <= 24)
    (snd (PalQueryPool_GetResults sample_PalToVkResult sample_xfb_pool sample_backend
            0 2 24 12 4)).
Proof.
  unfold sample_xfb_pool.
  apply (xfb_GetResults_within_dataSize_when_strides_fit sample_PalToVkResult
           (fun _ => true) sample_backend 0 2 24 12 4).
  - vm_compute. discriminate.
  - vm_compute. discriminate.
Defined.

(** ** Stream-output read-back: the width the caller asks for *)

Lemma has_flag_force_64_bit (flags : N) :
  has_flag (N.lor flags VK_QUERY_RESULT_64_BIT) VK_QUERY_RESULT_64_BIT = true
  /\ has_flag (N.lor flags VK_QUERY_RESULT_64_BIT) VK_QUERY_RESULT_WITH_AVAILABILITY_BIT
     = has_flag flags VK_QUERY_RESULT_WITH_AVAILABILITY_BIT
  /\ has_flag (N.lor flags VK_QUERY_RESULT_64_BIT) VK_QUERY_RESULT_PARTIAL_BIT
     = has_flag flags VK_QUERY_RESULT_PARTIAL_BIT.
Proof.
  unfold has_flag. rewrite !N.land_lor_distr_l.
  change (N.land VK_QUERY_RESULT_64_BIT VK_QUERY_RESULT_64_BIT) with 1.
  change (N.land VK_QUERY_RESULT_64_BIT VK_QUERY_RESULT_WITH_AVAILABILITY_BIT) with 0.
  change (N.land VK_QUERY_RESULT_64_BIT VK_QUERY_RESULT_PARTIAL_BIT) with 0.
  rewrite !N.lor_0_r. split; [|split; reflexivity].
  destruct (N.eqb_spec (N.lor (N.land flags VK_QUERY_RESULT_64_BIT) 1) 0) as [E|E];
    [|reflexivity].
  apply N.lor_eq_0_iff in E as [_ E]. discriminate.
Qed.

Lemma map_flat_map {A B C : Type} (f : B -> C) (g : A -> list B) (l : list A) :
  map f (flat_map g l) = flat_map (fun x => map f (g x)) l.
Proof.
  induction l as [|x l IH]; simpl; [reflexivity|]. now rewrite map_app, IH.
Qed.

(** X9.  For a stream-output pool the back end is asked the same thing
    whatever width, stride and buffer size the caller passes, so the
    status of the read-back does not depend on them; and the values a
    32-bit read-back stores are those a 64-bit read-back stores, modulo
    2^32, one for one. *)
Theorem xfb_GetResults_width_independent
  (PalToVkResult : PalResult -> VkResult) (pPalQueryPools : nat -> bool)
  (backend : PalBackend) (startQuery queryCount : N)
  (dataSize stride dataSize' stride' flags : N) :
  let pool := {| m_queryType := VK_QUERY_TYPE_TRANSFORM_FEEDBACK_STREAM_EXT;
                 m_pPalQueryPool := pPalQueryPools |} in
  let narrow := PalQueryPool_GetResults PalToVkResult pool backend
                  startQuery queryCount dataSize stride flags in
  let wide := PalQueryPool_GetResults PalToVkResult pool backend
                startQuery queryCount dataSize' stride'
                (N.lor flags VK_QUERY_RESULT_64_BIT) in
  fst narrow = fst wide
  /\ (has_flag flags VK_QUERY_RESULT_64_BIT = false ->
      map store_val (snd narrow)
      = map (fun s => store_val s mod 2 ^ 32) (snd wide)).
Proof.
  cbv zeta.
  destruct (has_flag_force_64_bit flags) as (Hwide & Havail & Hpartial).
  assert (Helems : numXfbQueryDataElems (N.lor flags VK_QUERY_RESULT_64_BIT)
                   = numXfbQueryDataElems flags).
  { unfold numXfbQueryDataElems. now rewrite Havail. }
  assert (Hflags : N.lor (N.lor flags VK_QUERY_RESULT_64_BIT) VK_QUERY_RESULT_64_BIT
                   = N.lor flags VK_QUERY_RESULT_64_BIT).
  { now rewrite <- N.lor_assoc, N.lor_diag. }
  destruct (N.ltb_spec 0 queryCount) as [Hq|Hq].
  2:{ unfold PalQueryPool_GetResults.
      destruct (N.ltb_spec 0 queryCount); [lia|]. split; reflexivity. }
  pose proof (PalQueryPool_GetResults_xfb PalToVkResult pPalQueryPools backend
                startQuery queryCount dataSize stride flags) as Ln.
  pose proof (PalQueryPool_GetResults_xfb PalToVkResult pPalQueryPools backend
                startQuery queryCount dataSize' stride'
                (N.lor flags VK_QUERY_RESULT_64_BIT)) as Lw.
  pose proof (PalQueryPool_GetResults_xfb_error PalToVkResult pPalQueryPools backend
                startQuery queryCount dataSize stride flags) as En.
  pose proof (PalQueryPool_GetResults_xfb_error PalToVkResult pPalQueryPools backend
                startQuery queryCount dataSize' stride'
                (N.lor flags VK_QUERY_RESULT_64_BIT)) as Ew.
  cbv zeta in Ln, Lw, En, Ew. rewrite Helems, Hflags in Lw, Ew.
  set (reply := backend (N.lor flags VK_QUERY_RESULT_64_BIT) startQuery queryCount
                  (u64 (8 * numXfbQueryDataElems flags * queryCount))
                  (8 * numXfbQueryDataElems flags)) in *.
  set (result := PalToVkResult (reply_result reply)) in *.
  destruct (VkResult_eq_dec result VK_SUCCESS) as [Hs|Hs];
    [|destruct (VkResult_eq_dec result VK_NOT_READY) as [Hn|Hn]].
  3:{ rewrite En, Ew by assumption. split; reflexivity. }
  all: rewrite Ln, Lw by first [assumption | left; assumption | right; assumption];
    cbn [fst snd]; (split; [reflexivity|]); intros Hnarrow;
    rewrite !map_flat_map; apply flat_map_ext; intros j;
    unfold spec_xfb_record, store_elem;
    rewrite Hwide, Havail, Hpartial, Hnarrow;
    destruct (is_VK_SUCCESS result || has_flag flags VK_QUERY_RESULT_PARTIAL_BIT);
    destruct (has_flag flags VK_QUERY_RESULT_WITH_AVAILABILITY_BIT);
    reflexivity.
Qed.

Lemma xfb_GetResults_width_independent_witness :
  map store_val
    (snd (PalQueryPool_GetResults sample_PalToVkResult sample_xfb_pool sample_backend
            0 1 8 0 0))
  = map (fun s => store_val s mod 2 ^ 32)
      (snd (PalQueryPool_GetResults sample_PalToVkResult sample_xfb_pool sample_backend
              0 1 16 0 1)).
Proof.
  unfold sample_xfb_pool.
  destruct (xfb_GetResults_width_independent sample_PalToVkResult (fun _ => true)
              sample_backend 0 1 8 0 16 0 0) as [_ Hvalues].
  exact (Hvalues eq_refl).
Defined.

(** ** The life of a hardware-delegating pool *)

Local Open Scope nat_scope.

(** The trace of a successful creation followed by the pool's destruction
    releases what the creation acquired. *)
Lemma lifecycle_trace_balanced (pAllocator : option Allocator) (created : list Event)
  (pools : nat -> bool) (n : nat) :
  (forall i, count_occ Event_eq_dec created (EvCreateQueryPool i)
             = if pools i then 1 else 0) ->
  (forall e, (forall i, e <> EvCreateQueryPool i) ->
             count_occ Event_eq_dec created e = 0) ->
  (forall i, pools i = true -> i < n) ->
  no_resource_survives
    ((EvAllocApiObject pAllocator :: created ++ [EvAllocAndBindGpuMem])
     ++ destroy_pools pools n 0
     ++ [EvFreeGpuMem; EvDestructor; EvFreeApiObject pAllocator]).
Proof.
  intros Hcount Hother Hbound. unfold no_resource_survives.
  cbn [app]. split; [|split].
  - intros a. cbn [count_occ]. rewrite !count_occ_app. cbn [count_occ].
    rewrite (Hother (EvAllocApiObject a)), (Hother (EvFreeApiObject a))
      by (intros i; discriminate).
    rewrite !count_destroy_pools_other by (intros i; discriminate).
    repeat match goal with
           | |- context [Event_eq_dec ?x ?y] => destruct (Event_eq_dec x y)
           end; try discriminate; try reflexivity; exfalso; congruence.
  - intros i. cbn [count_occ]. rewrite !count_occ_app. cbn [count_occ].
    rewrite Hcount, count_destroy_pools.
    rewrite count_destroy_pools_other by (intros j; discriminate).
    rewrite (Hother (EvDestroyQueryPool i)) by (intros j; discriminate).
    repeat match goal with
           | |- context [Event_eq_dec ?x ?y] => destruct (Event_eq_dec x y)
           end; try discriminate.
    specialize (Hbound i).
    destruct (pools i); [|rewrite andb_false_r; lia].
    destruct (Nat.leb_spec 0 i); [|lia].
    destruct (Nat.ltb_spec i (0 + n)); [reflexivity|].
    specialize (Hbound eq_refl). lia.
  - cbn [count_occ]. rewrite !count_occ_app. cbn [count_occ].
    rewrite (Hother EvAllocAndBindGpuMem), (Hother EvFreeGpuMem)
      by (intros i; discriminate).
    rewrite !count_destroy_pools_other by (intros i; discriminate).
    repeat match goal with
           | |- context [Event_eq_dec ?x ?y] => destruct (Event_eq_dec x y)
           end; try discriminate; try reflexivity; exfalso; congruence.
Qed.

(** X10.  [PalQueryPool::Create] writes a pool exactly when it returns
    [VK_SUCCESS], and the pool it writes is of the requested query type;
    destroying that pool with the same allocator releases every resource
    the creation acquired: the back-end objects created, the GPU memory
    and the host block. *)
Theorem PalQueryPool_Create_then_Destroy
  (PalToVkResult : PalResult -> VkResult) (dev : Device) (queryType : VkQueryType)
  (pAllocator : option Allocator) :
  let r := PalQueryPool_Create PalToVkResult dev queryType pAllocator in
  (fst (fst r) = VK_SUCCESS <-> snd (fst r) <> None)
  /\ forall pool : PalQueryPool,
       snd (fst r) = Some pool ->
       m_queryType pool = queryType
       /\ no_resource_survives
            (snd r ++ snd (PalQueryPool_Destroy (NumPalDevices dev) pool pAllocator)).
Proof.
  cbv zeta. unfold PalQueryPool_Create.
  destruct (AllocApiObject dev); cbn [negb fst snd].
  2:{ split; [split; [discriminate|congruence]|]. intros pool H. discriminate. }
  destruct (create_pools PalToVkResult dev (NumPalDevices dev) 0
              (GetQueryPoolSize dev) VK_SUCCESS (fun _ => false))
    as [[result1 pools1] created] eqn:Hloop.
  apply create_pools_ledger in Hloop as (_ & Hbound & Hcount & Hother);
    [|reflexivity].
  destruct (is_VK_SUCCESS result1) eqn:Hfirst.
  - destruct (is_VK_SUCCESS (AllocAndBindGpuMem dev)) eqn:Hbind; cbn [fst snd].
    + apply is_VK_SUCCESS_true in Hbind. split.
      * split; [discriminate|intros _; exact Hbind].
      * intros pool Hpool. injection Hpool as <-. cbn [m_queryType].
        split; [reflexivity|].
        unfold PalQueryPool_Destroy. cbn [snd m_pPalQueryPool].
        apply lifecycle_trace_balanced.
        -- intros i. rewrite Hcount. reflexivity.
        -- exact Hother.
        -- intros i Hi. apply (Hbound i Hi). lia.
    + split.
      * split; [|congruence]. intros H. apply is_VK_SUCCESS_true in H. congruence.
      * intros pool H. discriminate.
  - rewrite Hfirst. cbn [fst snd]. split.
    + split; [|congruence]. intros H. apply is_VK_SUCCESS_true in H. congruence.
    + intros pool H. discriminate.
Qed.

Lemma PalQueryPool_Create_then_Destroy_witness :
  match snd (fst (PalQueryPool_Create sample_PalToVkResult sample_device
                    VK_QUERY_TYPE_OCCLUSION None)) with
  | Some pool =>
      no_resource_survives
        (snd (PalQueryPool_Create sample_PalToVkResult sample_device
                VK_QUERY_TYPE_OCCLUSION None)
         ++ snd (PalQueryPool_Destroy 3 pool None))
  | None => False
  end.
Proof.
  pose proof (PalQueryPool_Create_then_Destroy sample_PalToVkResult sample_device
                VK_QUERY_TYPE_OCCLUSION None) as H.
  cbv zeta in H. revert H.
  destruct (snd (fst (PalQueryPool_Create sample_PalToVkResult sample_device
                        VK_QUERY_TYPE_OCCLUSION None))) as [pool|].
  - intros [_ H]. exact (proj2 (H pool eq_refl)).
  - intros [H _]. exact (proj1 H eq_refl eq_refl).
Defined.


(** ** Reset of a hardware-delegating pool *)

Lemma reset_pools_spec (pools : nat -> bool) (startQuery queryCount : N) :
  forall (n deviceIdx : nat),
    reset_pools pools startQuery queryCount n deviceIdx
    = map (fun i => (i, startQuery, queryCount)) (filter pools (seq deviceIdx n)).
Proof.
  induction n as [|n IH]; intros d; cbn [reset_pools seq filter]; [reflexivity|].
  rewrite IH. destruct (pools d); reflexivity.
Qed.

Lemma filter_all {A : Type} (f : A -> bool) (l : list A) :
  (forall x, In x l -> f x = true) -> filter f l = l.
Proof.
  induction l as [|x l IH]; intros H; cbn [filter]; [reflexivity|].
  rewrite (H x) by now left. f_equal. apply IH. intros y Hy. apply H. now right.
Qed.

(** X11.  [PalQueryPool::Reset] hands the caller's range, as given, to
    the back-end object of every device whose object exists, once each
    in device order, and to nothing else; on a pool whose creation built
    an object on every device this is every device of the pool. *)
Theorem PalQueryPool_Reset_reaches_every_replica
  (PalToVkResult : PalResult -> VkResult) (dev : Device) (queryType : VkQueryType)
  (pAllocator : option Allocator) (startQuery queryCount : N) :
  (forall (pool : PalQueryPool) (numPalDevices : nat),
     PalQueryPool_Reset numPalDevices pool startQuery queryCount
     = map (fun i => (i, startQuery, queryCount))
         (filter (m_pPalQueryPool pool) (seq 0 numPalDevices)))
  /\ (forall pool : PalQueryPool,
        snd (fst (PalQueryPool_Create PalToVkResult dev queryType pAllocator))
        = Some pool ->
        GetQueryPoolSize dev = Success ->
        PalToVkResult Success = VK_SUCCESS ->
        (forall i, i < NumPalDevices dev -> CreateQueryPool dev i = (Success, true)) ->
        PalQueryPool_Reset (NumPalDevices dev) pool startQuery queryCount
        = map (fun i => (i, startQuery, queryCount)) (seq 0 (NumPalDevices dev))).
Proof.
  split.
  - intros pool n. unfold PalQueryPool_Reset. apply reset_pools_spec.
  - intros pool Hpool Hsize Hconv Hok.
    unfold PalQueryPool_Reset. rewrite reset_pools_spec. f_equal.
    apply filter_all. intros i Hi. apply in_seq in Hi.
    unfold PalQueryPool_Create in Hpool.
    destruct (AllocApiObject dev); cbn [negb fst snd] in Hpool; [|discriminate].
    rewrite Hsize in Hpool.
    destruct (create_pools_all_succeed PalToVkResult dev (NumPalDevices dev) 0
                (fun _ => false) Hconv Hok) as (pools' & Hrun & Hpools).
    rewrite Hrun in Hpool.
    change (is_VK_SUCCESS VK_SUCCESS) with true in Hpool. cbv iota in Hpool.
    destruct (is_VK_SUCCESS (AllocAndBindGpuMem dev)); cbn [fst snd] in Hpool;
      [|discriminate].
    injection Hpool as <-. cbn [m_pPalQueryPool]. rewrite Hpools.
    destruct (Nat.leb_spec 0 i); [|lia].
    destruct (Nat.ltb_spec i (0 + NumPalDevices dev)); [reflexivity|lia].
Qed.

Lemma PalQueryPool_Reset_reaches_every_replica_witness :
  match snd (fst (PalQueryPool_Create sample_PalToVkResult sample_device
                    VK_QUERY_TYPE_OCCLUSION None)) with
  | Some pool =>
      PalQueryPool_Reset 3 pool 2 5 = [(0, 2%N, 5%N); (1, 2%N, 5%N); (2, 2%N, 5%N)]
  | None => False
  end.
Proof.
  pose proof (proj2 (PalQueryPool_Reset_reaches_every_replica sample_PalToVkResult
                       sample_device VK_QUERY_TYPE_OCCLUSION None 2%N 5%N)) as H.
  revert H.
  destruct (snd (fst (PalQueryPool_Create sample_PalToVkResult sample_device
                        VK_QUERY_TYPE_OCCLUSION None))) as [pool|] eqn:E.
  - intros H.
    exact (H pool eq_refl eq_refl eq_refl (fun _ _ => eq_refl)).
  - discriminate E.
Defined.

Local Open Scope N_scope.

(** * Creation of a timestamp pool, and the factory *)

Lemma create_views_spec (ts : TimestampDevice) (typed : bool) (stride : N) :
  forall (n deviceIdx : nat),
    create_views ts typed stride n deviceIdx
    = map (fun i => CallCreateBufferViewSrds typed i (InternalMemory_GpuVirtAddr ts i)
                      (InternalMemory_Size ts) stride)
        (seq deviceIdx n).
Proof.
  induction n as [|n IH]; intros d; cbn [create_views seq map]; [reflexivity|].
  now rewrite IH.
Qed.

(** X12.  [TimestampQueryPool::Create] is all-or-nothing and cannot fail
    for lack of GPU memory when no slot is asked for.  It returns
    [VK_SUCCESS], and writes a pool of [queryCount] slots of the device's
    slot size, exactly when the host block is allocated and, for
    [queryCount > 0], the GPU memory is; with [queryCount = 0] it asks
    for no GPU memory and builds no view.  On failure it writes no pool
    and ends by freeing the (never allocated) GPU memory and the host
    block, the latter also when the block is null. *)
Theorem TimestampQueryPool_Create_outcome (dev : Device) (ts : TimestampDevice)
  (queryCount : N) (pAllocator : option Allocator) :
  let r := TimestampQueryPool_Create dev ts queryCount pAllocator in
  let result := fst (fst r) in
  let pool := snd (fst r) in
  let calls := snd r in
  (result = VK_SUCCESS
   <-> AllocApiObject dev = true /\ (queryCount = 0 \/ AllocGpuMem ts = VK_SUCCESS))
  /\ (result = VK_SUCCESS ->
      pool = Some {| m_entryCount := queryCount;
                     m_slotSize := timestampQueryPoolSlotSize ts |})
  /\ (result = VK_SUCCESS -> queryCount = 0 ->
      calls = [CallAllocApiObject pAllocator true; CallZeroViewStorage])
  /\ (result <> VK_SUCCESS ->
      pool = None
      /\ exists acquired,
           calls = acquired ++ [CallFreeGpuMem false;
                                CallFreeApiObject pAllocator (AllocApiObject dev)]
           /\ Forall (fun c => c = CallAllocApiObject pAllocator (AllocApiObject dev)
                               \/ exists request,
                                    c = CallAllocGpuMem request (AllocGpuMem ts)
                                    /\ AllocGpuMem ts <> VK_SUCCESS)
                acquired)
  /\ (AllocApiObject dev = false -> result = VK_ERROR_OUT_OF_HOST_MEMORY)
  /\ (AllocApiObject dev = true -> 0 < queryCount ->
      AllocGpuMem ts <> VK_SUCCESS -> result = AllocGpuMem ts).
Proof.
  cbv zeta. unfold TimestampQueryPool_Create.
  destruct (AllocApiObject dev) eqn:Hhost.
  - change (is_VK_SUCCESS VK_SUCCESS) with true. cbn [andb].
    destruct (N.ltb_spec 0 queryCount) as [Hq|Hq].
    + destruct (is_VK_SUCCESS (AllocGpuMem ts)) eqn:Hgpu; cbn [fst snd andb app].
      * apply is_VK_SUCCESS_true in Hgpu.
        split; [split; [intros _; split; [reflexivity|right; exact Hgpu]
                       |intros _; exact Hgpu]|].
        split; [intros _; reflexivity|].
        split; [intros _ Hz; lia|].
        split; [intros Hne; contradiction|].
        split; [intros Hf; discriminate|intros _ _ Hne; contradiction].
      * assert (Hne : AllocGpuMem ts <> VK_SUCCESS).
        { intros E. apply is_VK_SUCCESS_true in E. congruence. }
        split; [split; [intros E; contradiction
                       |intros [_ [Hz|E]]; [lia|contradiction]]|].
        split; [intros E; contradiction|].
        split; [intros E; contradiction|].
        split; [|split; [intros Hf; discriminate|intros _ _ _; reflexivity]].
        intros _. split; [reflexivity|].
        match goal with
        | |- context [CallAllocGpuMem ?request _] =>
            exists [CallAllocApiObject pAllocator true;
                    CallAllocGpuMem request (AllocGpuMem ts)]
        end.
        split; [reflexivity|].
        constructor; [now left|]. constructor; [|constructor].
        right. eexists. split; [reflexivity|exact Hne].
    + assert (queryCount = 0) by lia. subst queryCount.
      change (is_VK_SUCCESS VK_SUCCESS) with true. cbn [fst snd app].
      split; [split; [intros _; split; [reflexivity|now left]|intros _; reflexivity]|].
      split; [intros _; reflexivity|].
      split; [intros _ _; reflexivity|].
      split; [intros Hne; contradiction|].
      split; [intros Hf; discriminate|intros _ Hz; lia].
  - change (is_VK_SUCCESS VK_ERROR_OUT_OF_HOST_MEMORY) with false.
    cbn [andb fst snd app].
    split; [split; [intros E; discriminate|intros [E _]; discriminate]|].
    split; [intros E; discriminate|].
    split; [intros E; discriminate|].
    split; [|split; [intros _; reflexivity|intros E; discriminate]].
    intros _. split; [reflexivity|].
    exists [CallAllocApiObject pAllocator false]. split; [reflexivity|].
    constructor; [now left|constructor].
Qed.

Lemma TimestampQueryPool_Create_outcome_witness :
  fst (fst (TimestampQueryPool_Create sample_device sample_timestamp_device 4 None))
  = VK_ERROR_OUT_OF_DEVICE_MEMORY
  /\ fst (fst (TimestampQueryPool_Create sample_device sample_timestamp_device 0 None))
     = VK_SUCCESS.
Proof.
  destruct (TimestampQueryPool_Create_outcome sample_device sample_timestamp_device
              4 None) as (_ & _ & _ & _ & _ & Hgpu).
  destruct (TimestampQueryPool_Create_outcome sample_device sample_timestamp_device
              0 None) as (Hok & _).
  split.
  - apply Hgpu; [reflexivity | reflexivity | discriminate].
  - apply Hok. split; [reflexivity | now left].
Defined.

(** X13.  A successful creation of a timestamp pool with slots asks for
    GPU memory once, whatever the number of devices, and then builds one
    buffer view per device, in device order, over that memory.  The size
    asked for is [queryCount * slotSize] in 32-bit arithmetic, aligned to
    the slot size and persistently mapped; with more than one device the
    allocation is one shareable allocation in the cacheable host-visible
    heap on the default memory instance, with one device it is offered
    the local, cacheable and write-combined heaps on the device's mask.
    The views are untyped with stride 0 when the device copies results
    with strides, typed with the slot size as stride otherwise. *)
Theorem TimestampQueryPool_Create_success_calls (dev : Device) (ts : TimestampDevice)
  (queryCount : N) (pAllocator : option Allocator) :
  let r := TimestampQueryPool_Create dev ts queryCount pAllocator in
  let slotSize := timestampQueryPoolSlotSize ts in
  let view := fun i : nat =>
    CallCreateBufferViewSrds (negb (UseStridedCopyQueryResults ts)) i
      (InternalMemory_GpuVirtAddr ts i) (InternalMemory_Size ts)
      (if UseStridedCopyQueryResults ts then 0 else slotSize) in
  0 < queryCount ->
  fst (fst r) = VK_SUCCESS ->
  exists request : GpuMemRequest,
    snd r
    = CallAllocApiObject pAllocator true
      :: CallAllocGpuMem request VK_SUCCESS
      :: map view (seq 0 (NumPalDevices dev))
    /\ req_size request = (queryCount * slotSize) mod 2 ^ 32
    /\ req_alignment request = slotSize
    /\ req_persistentMapped request = true
    /\ if (1 <? NumPalDevices dev)%nat
       then req_shareable request = true
            /\ req_heaps request = [GpuHeapGartCacheable]
            /\ req_allocMask request = 2 ^ DefaultMemoryInstanceIdx ts mod 2 ^ 32
       else req_shareable request = false
            /\ req_heaps request
               = [GpuHeapLocal; GpuHeapGartCacheable; GpuHeapGartUswc]
            /\ req_allocMask request = GetPalDeviceMask ts.
Proof.
  cbv zeta. intros Hq. unfold TimestampQueryPool_Create.
  apply N.ltb_lt in Hq. rewrite Hq.
  destruct (AllocApiObject dev).
  2:{ change (is_VK_SUCCESS VK_ERROR_OUT_OF_HOST_MEMORY) with false.
      cbn [andb fst]. discriminate. }
  change (is_VK_SUCCESS VK_SUCCESS) with true. cbn [andb].
  destruct (is_VK_SUCCESS (AllocGpuMem ts)) eqn:Hgpu; cbn [fst snd app].
  2:{ intros E. apply is_VK_SUCCESS_true in E. congruence. }
  intros Hok. rewrite Hok.
  match goal with
  | |- context [CallAllocGpuMem ?request _] => exists request
  end.
  split.
  - f_equal. f_equal.
    destruct (UseStridedCopyQueryResults ts); cbn [negb];
      apply create_views_spec.
  - destruct (1 <? NumPalDevices dev)%nat;
      cbn [req_size req_alignment req_persistentMapped req_shareable req_heaps
           req_allocMask];
      repeat split. unfold u32. now rewrite N.shiftl_1_l.
Qed.

Lemma TimestampQueryPool_Create_success_calls_witness :
  exists request : GpuMemRequest,
    In (CallAllocGpuMem request VK_SUCCESS)
       (snd (TimestampQueryPool_Create sample_device
               {| timestampQueryPoolSlotSize := 8;
                  AllocGpuMem := VK_SUCCESS;
                  UseStridedCopyQueryResults := true;
                  GetPalDeviceMask := 7;
                  DefaultMemoryInstanceIdx := 0;
                  InternalMemory_Size := 4096;
                  InternalMemory_GpuVirtAddr := fun i => 65536 * N.of_nat i |}
               536870913 None))
    /\ req_size request = 8.
Proof.
  destruct (TimestampQueryPool_Create_success_calls sample_device
              {| timestampQueryPoolSlotSize := 8;
                 AllocGpuMem := VK_SUCCESS;
                 UseStridedCopyQueryResults := true;
                 GetPalDeviceMask := 7;
                 DefaultMemoryInstanceIdx := 0;
                 InternalMemory_Size := 4096;
                 InternalMemory_GpuVirtAddr := fun i => 65536 * N.of_nat i |}
              536870913 None eq_refl eq_refl)
    as (request & Hcalls & Hsize & _).
  exists request. split.
  - rewrite Hcalls. right. now left.
  - rewrite Hsize. reflexivity.
Defined.

(** ** The factory *)

(** X14.  [QueryPool::Create] writes a handle exactly when it returns
    [VK_SUCCESS], and the object behind the handle is of the variant the
    query type asks for: a timestamp pool with [queryCount] slots for
    [VK_QUERY_TYPE_TIMESTAMP], a hardware-delegating pool of the
    requested type for every other type. *)
Theorem QueryPool_Create_variant (PalToVkResult : PalResult -> VkResult)
  (dev : Device) (ts : TimestampDevice) (queryType : VkQueryType)
  (queryCount : N) (pAllocator : option Allocator) :
  let r := QueryPool_Create PalToVkResult dev ts queryType queryCount pAllocator in
  (fst (fst r) = VK_SUCCESS <-> snd (fst r) <> None)
  /\ forall object : QueryPool,
       snd (fst r) = Some object ->
       match object with
       | TimestampPool pool =>
           queryType = VK_QUERY_TYPE_TIMESTAMP
           /\ m_entryCount pool = queryCount
           /\ m_slotSize pool = timestampQueryPoolSlotSize ts
       | PalPool pool =>
           queryType <> VK_QUERY_TYPE_TIMESTAMP /\ m_queryType pool = queryType
       end.
Proof.
  cbv zeta.
  assert (Hpal : queryType <> VK_QUERY_TYPE_TIMESTAMP ->
            let r := PalQueryPool_Create PalToVkResult dev queryType pAllocator in
            let handle := if is_VK_SUCCESS (fst (fst r))
                          then option_map PalPool (snd (fst r)) else None in
            (fst (fst r) = VK_SUCCESS <-> handle <> None)
            /\ forall object, handle = Some object ->
                 exists pool, object = PalPool pool /\ m_queryType pool = queryType).
  { intros _. cbv zeta. unfold PalQueryPool_Create.
    destruct (AllocApiObject dev); cbn [negb fst snd].
    2:{ change (is_VK_SUCCESS VK_ERROR_OUT_OF_HOST_MEMORY) with false.
        split; [split; [discriminate|congruence]|]. intros object H. discriminate. }
    destruct (create_pools PalToVkResult dev (NumPalDevices dev) 0
                (GetQueryPoolSize dev) VK_SUCCESS (fun _ => false))
      as [[result1 pools1] created].
    destruct (is_VK_SUCCESS result1) eqn:Hfirst.
    - destruct (is_VK_SUCCESS (AllocAndBindGpuMem dev)) eqn:Hbind; cbn [fst snd].
      + rewrite Hbind. cbn [option_map]. apply is_VK_SUCCESS_true in Hbind. split.
        * split; [discriminate|intros _; exact Hbind].
        * intros object H. injection H as <-. eexists. split; reflexivity.
      + rewrite Hbind. split.
        * split; [|congruence]. intros H. apply is_VK_SUCCESS_true in H. congruence.
        * intros object H. discriminate.
    - rewrite Hfirst. cbn [fst snd]. rewrite Hfirst. split.
      + split; [|congruence]. intros H. apply is_VK_SUCCESS_true in H. congruence.
      + intros object H. discriminate. }
  assert (Hts : let r := TimestampQueryPool_Create dev ts queryCount pAllocator in
            let handle := if is_VK_SUCCESS (fst (fst r))
                          then option_map TimestampPool (snd (fst r)) else None in
            (fst (fst r) = VK_SUCCESS <-> handle <> None)
            /\ forall object, handle = Some object ->
                 object = TimestampPool
                            {| m_entryCount := queryCount;
                               m_slotSize := timestampQueryPoolSlotSize ts |}).
  { cbv zeta. unfold TimestampQueryPool_Create.
    destruct (is_VK_SUCCESS
                (if is_VK_SUCCESS (if AllocApiObject dev then VK_SUCCESS
                                   else VK_ERROR_OUT_OF_HOST_MEMORY)
                    && (0 <? queryCount)
                 then AllocGpuMem ts
                 else if AllocApiObject dev then VK_SUCCESS
                      else VK_ERROR_OUT_OF_HOST_MEMORY)) eqn:Hres; cbn [fst snd].
    - rewrite Hres. cbn [option_map]. apply is_VK_SUCCESS_true in Hres. split.
      + split; [discriminate|intros _; exact Hres].
      + intros object H. now injection H as <-.
    - rewrite Hres. split.
      + split; [|congruence]. intros H. apply is_VK_SUCCESS_true in H. congruence.
      + intros object H. discriminate. }
  unfold QueryPool_Create.
  destruct queryType.
  3:{ cbv zeta in Hts.
      destruct (TimestampQueryPool_Create dev ts queryCount pAllocator)
        as [[result pObject] calls].
      cbn [fst snd] in Hts |- *.
      destruct Hts as [Hiff Hobj]. split; [exact Hiff|].
      intros object H. rewrite (Hobj object H). repeat split. }
  all: specialize (Hpal ltac:(discriminate)); cbv zeta in Hpal;
    match type of Hpal with
    | context [PalQueryPool_Create ?f ?d ?t ?a] =>
        destruct (PalQueryPool_Create f d t a) as [[result pObject] events]
    end;
    cbn [fst snd] in Hpal |- *; destruct Hpal as [Hiff Hobj];
    (split; [exact Hiff|]);
    intros object H; destruct (Hobj object H) as (pool & -> & Hty);
    split; [discriminate|exact Hty].
Qed.

Lemma QueryPool_Create_variant_witness :
  match snd (fst (QueryPool_Create sample_PalToVkResult sample_device
                    sample_timestamp_device VK_QUERY_TYPE_TIMESTAMP 0 None)) with
  | Some (TimestampPool pool) => m_entryCount pool = 0 /\ m_slotSize pool = 8
  | _ => False
  end.
Proof.
  pose proof (proj2 (QueryPool_Create_variant sample_PalToVkResult sample_device
                       sample_timestamp_device VK_QUERY_TYPE_TIMESTAMP 0 None)) as H.
  revert H.
  destruct (snd (fst (QueryPool_Create sample_PalToVkResult sample_device
                        sample_timestamp_device VK_QUERY_TYPE_TIMESTAMP 0 None)))
    as [[pool|pool]|] eqn:E.
  - discriminate E.
  - intros H. exact (proj2 (H (TimestampPool pool) eq_refl)).
  - discriminate E.
Defined.


Local Open Scope N_scope.

(** * The arrays behind a pipeline layout *)

(** X15.  The two arrays stored behind a pipeline layout object do not
    collide: for a layout of [setCount] sets, the user-data entries that
    [GetSetUserData] returns for indices below [setCount] start at the
    end of the object, are pairwise disjoint, and each ends before every
    pointer that [GetSetLayouts] returns; the pointers of two indices
    are a whole number of pointers apart; and when the object's size is
    a multiple of the pointer size, as an entry's is by the static
    assertion of the header, every pointer is stored at a multiple of
    the pointer size. *)
Theorem PipelineLayout_trailing_arrays
  (sizeofThis sizeofPointer setCount setIndex : N) :
  sizeofThis < 2 ^ 32 ->
  setCount < 2 ^ 32 ->
  setIndex < setCount ->
  let entry := GetSetUserData_offset sizeofThis in
  let pointer := GetSetLayouts_offset sizeofThis sizeofPointer setCount in
  sizeofThis <= entry setIndex
  /\ (forall other : N,
        other < setIndex ->
        entry other + sizeof_SetUserDataLayout <= entry setIndex)
  /\ (forall k : N, entry setIndex + sizeof_SetUserDataLayout <= pointer k)
  /\ (forall k : N, pointer (k + 1) = pointer k + sizeofPointer)
  /\ (sizeofPointer <> 0 ->
      sizeofThis mod sizeofPointer = 0 ->
      sizeof_SetUserDataLayout mod sizeofPointer = 0 ->
      forall k : N, pointer k mod sizeofPointer = 0).
Proof.
  intros Hthis Hcount Hidx. cbv zeta.
  unfold GetSetUserData_offset, GetSetLayouts_offset, sizeof_SetUserDataLayout.
  change (2 ^ 32) with 4294967296 in *.
  assert (Hmul : u64 (setCount * (6 * 4)) = setCount * 24).
  { unfold u64. apply N.mod_small. change (2 ^ 64) with 18446744073709551616. lia. }
  assert (Hsum : u64 (sizeofThis + setCount * 24) = sizeofThis + setCount * 24).
  { unfold u64. apply N.mod_small. change (2 ^ 64) with 18446744073709551616. lia. }
  rewrite Hmul, Hsum. change (6 * 4) with 24.
  split; [lia|]. split; [intros other Ho; lia|]. split; [intros k; lia|].
  split; [intros k; lia|].
  intros Hp Hthis0 Hentry0 k.
  apply N.Div0.mod_divides in Hthis0 as [a Ha].
  apply N.Div0.mod_divides in Hentry0 as [b Hb].
  apply N.Div0.mod_divides.
  exists (a + setCount * b + k). rewrite Ha, Hb. lia.
Qed.

Lemma PipelineLayout_trailing_arrays_witness :
  GetSetUserData_offset 96 2 + sizeof_SetUserDataLayout
  <= GetSetLayouts_offset 96 8 3 0
  /\ GetSetLayouts_offset 96 8 3 1 mod 8 = 0.
Proof.
  destruct (PipelineLayout_trailing_arrays 96 8 3 2 eq_refl eq_refl eq_refl)
    as (_ & _ & Hbefore & _ & Haligned).
  split.
  - apply Hbefore.
  - apply Haligned; [discriminate|reflexivity|reflexivity].
Defined.
